(** * gift-parser: the extraction rules of [FragmentClient]

    A shallow embedding of [src/main.py]: the two extraction routines
    [FragmentClient.get_gifts] (catalog page to [Gift] records) and
    [FragmentClient.get_gift_info] (detail page to a [GiftInfo] record),
    together with the Python built-ins and the BeautifulSoup queries they
    call, and the properties of the specification proved about them.

    What is modelled and how:
    - a Python [str] is a [string]; a character stands for the code point of
      the same number, so the development covers the Latin-1 range
      (code points 0..255), for which the tables of [str.isspace] and
      [str.lower] are written out;
    - exceptions are values: a call that can raise returns [result A];
    - the document that [BeautifulSoup(html, 'lxml')] builds is the input:
      a tree of tags and strings ([Bs4.element]);
    - [info_table], a Python [dict], is a [gmap string Bs4.element];
    - the HTTP request and [urljoin] belong to libraries outside the
      repository: the extractors start from the parsed document, and
      [urljoin] is a variable of the section that defines [get_gifts]. *)

From Stdlib Require Import ZArith QArith Ascii.
From stdpp Require Import base option list strings gmap.

Local Open Scope Z_scope.
Local Open Scope stdpp_scope.

(** ** Exceptions *)

Inductive exn := AttributeError | ValueError | TypeError.

Global Instance exn_eq_dec : EqDecision exn.
Proof. solve_decision. Defined.

(** [inl e]: the call raised [e]; [inr a]: it returned [a]. *)
Definition result (A : Type) : Type := exn + A.

Definition ret {A} (a : A) : result A := inr a.
Definition raise {A} (e : exn) : result A := inl e.

Definition bind {A B} (m : result A) (k : A → result B) : result B :=
  match m with
  | inl e => inl e
  | inr a => k a
  end.

Declare Scope result_scope.
Delimit Scope result_scope with result.
Notation "'let*' x ':=' m 'in' k" := (bind m (fun x => k))
  (at level 10, x name, m at level 100, k at level 200,
   format "'[v' 'let*'  x  ':='  m  'in' '/' k ']'") : result_scope.
Local Open Scope result_scope.

(** [try: body except (e1, ..., en): handler], with [handled] the list of the
    exception classes of the [except] clause. *)
Definition try_except {A} (body : result A) (handled : list exn)
    (handler : result A) : result A :=
  match body with
  | inl e => if bool_decide (e ∈ handled) then handler else inl e
  | inr a => inr a
  end.

(** ** Python built-ins *)

Module Py.

(** *** Characters *)

Definition ord (c : ascii) : Z := Z.of_N (N_of_ascii c).

Definition between (lo hi : Z) (c : ascii) : bool :=
  (lo <=? ord c) && (ord c <=? hi).

(** [str.isspace] on one character (code points 9-13, 28-32, 133, 160). *)
Definition isspace (c : ascii) : bool :=
  between 9 13 c || between 28 32 c || (ord c =? 133) || (ord c =? 160).

(** The interpreter's [Py_ISSPACE], which the number parsers use on their
    ASCII copy of the text. *)
Definition Py_ISSPACE (c : ascii) : bool :=
  between 9 13 c || (ord c =? 32).

Definition isdigit (c : ascii) : bool := between 48 57 c.

(** [str.lower] on one character: A-Z and the upper-case letters of
    Latin-1 (192-222 but the multiplication sign 215) move up by 32. *)
Definition lower_char (c : ascii) : ascii :=
  if between 65 90 c || (between 192 222 c && negb (ord c =? 215))
  then ascii_of_N (N_of_ascii c + 32)
  else c.

(** *** [str] methods *)

(** [c in s] for a one-character [c]. *)
Fixpoint contains (c : ascii) (s : string) : bool :=
  match s with
  | EmptyString => false
  | String d r => bool_decide (d = c) || contains c r
  end.

(** [s.lower()] *)
Fixpoint lower (s : string) : string :=
  match s with
  | EmptyString => EmptyString
  | String c r => String (lower_char c) (lower r)
  end.

(** [s.replace(c, '')] for a one-character [c]. *)
Fixpoint replace_empty (c : ascii) (s : string) : string :=
  match s with
  | EmptyString => EmptyString
  | String d r =>
      if bool_decide (d = c) then replace_empty c r
      else String d (replace_empty c r)
  end.

(** Dropping the characters of a class [p] at the left or right end. *)
Fixpoint lstrip_with (p : ascii → bool) (s : string) : string :=
  match s with
  | EmptyString => EmptyString
  | String c r => if p c then lstrip_with p r else s
  end.

Fixpoint rstrip_with (p : ascii → bool) (s : string) : string :=
  match s with
  | EmptyString => EmptyString
  | String c r =>
      match rstrip_with p r with
      | EmptyString => if p c then EmptyString else String c EmptyString
      | r' => String c r'
      end
  end.

(** [s.strip()] *)
Definition strip (s : string) : string :=
  rstrip_with isspace (lstrip_with isspace s).

(** [s[1:]] *)
Definition tail (s : string) : string :=
  match s with
  | EmptyString => EmptyString
  | String _ r => r
  end.

(** [s.split(sep)] for a one-character [sep]: never the empty list. *)
Fixpoint split (sep : ascii) (s : string) : list string :=
  match s with
  | EmptyString => [EmptyString]
  | String c r =>
      if bool_decide (c = sep) then EmptyString :: split sep r
      else match split sep r with
           | w :: ws => String c w :: ws
           | [] => [String c EmptyString]
           end
  end.

(** [s.rsplit(sep, 1)] for a one-character [sep]: the text cut at the last
    [sep], or the text alone when it has none. *)
Fixpoint rsplit1 (sep : ascii) (s : string) : list string :=
  match s with
  | EmptyString => [EmptyString]
  | String c r =>
      match rsplit1 sep r with
      | [a; b] => [String c a; b]
      | _ => if bool_decide (c = sep) then [EmptyString; r]
             else [String c r]
      end
  end.

(** [s.split()]: the maximal runs of characters that are not whitespace. *)
Fixpoint split_ws (s : string) : list string :=
  match s with
  | EmptyString => []
  | String c r =>
      if isspace c then split_ws r
      else match r with
           | EmptyString => [String c EmptyString]
           | String d _ =>
               if isspace d then String c EmptyString :: split_ws r
               else match split_ws r with
                    | w :: ws => String c w :: ws
                    | [] => [String c EmptyString]
                    end
           end
  end.

(** [l[0::2]] *)
Fixpoint slice_even {A} (l : list A) : list A :=
  match l with
  | [] => []
  | x :: r => x :: match r with
                   | [] => []
                   | _ :: r' => slice_even r'
                   end
  end.

(** [l[-1]] and [l[0]] on the result of [split], which is never empty;
    the default stands for the [IndexError] that cannot happen there. *)
Definition item_last (l : list string) : string := List.last l EmptyString.
Definition item_first (l : list string) : string := List.hd EmptyString l.

(** *** Numbers from text

    [int(s)] and [float(s)] first make an ASCII copy of the text
    ([_PyUnicode_TransformDecimalAndSpaceToASCII]): a text that is ASCII
    already is taken as it is; otherwise characters below 127 are kept, other
    whitespace becomes a space, and the copy ends with a question mark at the
    first other character (Latin-1 has no decimal digit beyond 0-9). *)

Fixpoint is_ascii (s : string) : bool :=
  match s with
  | EmptyString => true
  | String c r => (ord c <? 128) && is_ascii r
  end.

Fixpoint transform_ascii (s : string) : string :=
  match s with
  | EmptyString => EmptyString
  | String c r =>
      if ord c <? 127 then String c (transform_ascii r)
      else if isspace c then String " " (transform_ascii r)
      else "?"
  end.

Definition to_ascii (s : string) : string :=
  if is_ascii s then s else transform_ascii s.

Definition digit_val (c : ascii) : Z := ord c - 48.

(** An optional sign: [true] for a minus. *)
Definition sign (s : string) : bool * string :=
  match s with
  | String "+" r => (false, r)
  | String "-" r => (true, r)
  | _ => (false, s)
  end.

(** The digit scan of [PyLong_FromString] in base 10: the longest run of
    digits and underscores, refused when two underscores meet or one ends the
    run; it gives the number of digits, their value and the text left. *)
Fixpoint scan_digits (prev_underscore : bool) (n : nat) (acc : Z) (s : string)
    : option (nat * Z * string) :=
  match s with
  | EmptyString => if prev_underscore then None else Some (n, acc, s)
  | String c r =>
      if isdigit c then scan_digits false (S n) (10 * acc + digit_val c) r
      else if bool_decide (c = "_"%char) then
        if prev_underscore then None else scan_digits true n acc r
      else if prev_underscore then None else Some (n, acc, s)
  end.

(** [int(s)] for a [str]; the interpreter's optional limit on the number of
    digits ([sys.set_int_max_str_digits]) is left out. *)
Definition int (s : string) : result Z :=
  let s := lstrip_with Py_ISSPACE (to_ascii s) in
  let '(neg, s) := sign s in
  match s with
  | String "_" _ => raise ValueError
  | _ =>
      match scan_digits false 0 0 s with
      | Some (S _, v, rest) =>
          match lstrip_with Py_ISSPACE rest with
          | EmptyString => ret (if neg then - v else v)
          | _ => raise ValueError
          end
      | _ => raise ValueError
      end
  end.

(** The value of a Python [float] is a binary64 number (a C [double]):
    not-a-number, an infinity, or a sign with a magnitude, the magnitude being
    kept as a fraction in lowest terms. *)
Inductive double :=
  | Nan
  | Inf (neg : bool)
  | Finite (neg : bool) (mag : Q).

(** [n / d * 2^k] as a fraction. *)
Definition mul_pow2 (n d k : Z) : Z * Z :=
  if 0 <=? k then (n * 2 ^ k, d) else (n, d * 2 ^ (- k)).

(** [n / d] rounded to the nearest integer, ties to the even one. *)
Definition round_half_even (n d : Z) : Z :=
  let q := n / d in
  match 2 * (n mod d) ?= d with
  | Lt => q
  | Gt => q + 1
  | Eq => if Z.even q then q else q + 1
  end.

(** The binary64 number nearest to [n / d] for positive [n] and [d]
    (53 bits of precision, exponents from -1074, ties to even), as the
    correctly rounded [strtod] of the interpreter gives it. *)
Definition binary64 (neg : bool) (n d : Z) : double :=
  let e0 := Z.log2 n - Z.log2 d in
  let '(a, b) := mul_pow2 n d (- e0) in
  let e := if a <? b then e0 - 1 else e0 in
  let p := Z.max (e - 52) (- 1074) in
  let '(a, b) := mul_pow2 n d (- p) in
  let q := round_half_even a b in
  if 0 <=? p then
    if 2 ^ 1024 <=? q * 2 ^ p then Inf neg
    else Finite neg (Qmake (q * 2 ^ p) 1)
  else Finite neg (Qred (Qmake q (Z.to_pos (2 ^ (- p))))).

(** The float of the decimal number [m * 10^e], [m] not negative. *)
Definition of_decimal (neg : bool) (m e : Z) : double :=
  if m =? 0 then Finite neg (Qmake 0 1)
  else if 0 <=? e then binary64 neg (m * 10 ^ e) 1
  else binary64 neg m (10 ^ (- e)).

(** The longest prefix of digits, and the rest. *)
Fixpoint span_digits (s : string) : string * string :=
  match s with
  | EmptyString => (EmptyString, EmptyString)
  | String c r =>
      if isdigit c then let '(ds, rest) := span_digits r in (String c ds, rest)
      else (EmptyString, s)
  end.

Fixpoint digits_val (acc : Z) (s : string) : Z :=
  match s with
  | EmptyString => acc
  | String c r => digits_val (10 * acc + digit_val c) r
  end.

Definition strlen (s : string) : Z := Z.of_nat (String.length s).

(** A decimal numeral without its sign, all of the text:
    digits, an optional point and digits, with a digit on one side of the
    point at least, then an optional exponent. It gives the mantissa and the
    power of ten. *)
Definition parse_decimal (s : string) : option (Z * Z) :=
  let '(ip, r1) := span_digits s in
  let '(fp, r2) :=
    match r1 with
    | String "." r => span_digits r
    | _ => (EmptyString, r1)
    end in
  let m := digits_val 0 (ip +:+ fp) in
  match ip +:+ fp with
  | EmptyString => None
  | _ =>
      match r2 with
      | EmptyString => Some (m, - strlen fp)
      | String c r3 =>
          if bool_decide (c = "e"%char) || bool_decide (c = "E"%char) then
            let '(eneg, r4) := sign r3 in
            match span_digits r4 with
            | (String _ _ as ed, EmptyString) =>
                let x := digits_val 0 ed in
                Some (m, (if eneg then - x else x) - strlen fp)
            | _ => None
            end
          else None
      end
  end.

(** The interpreter's [Py_TOLOWER]: ASCII letters only. *)
Definition Py_TOLOWER (c : ascii) : ascii :=
  if between 65 90 c then ascii_of_N (N_of_ascii c + 32) else c.

Fixpoint tolower (s : string) : string :=
  match s with
  | EmptyString => EmptyString
  | String c r => String (Py_TOLOWER c) (tolower r)
  end.

(** [_Py_parse_inf_or_nan] on all of the text. *)
Definition parse_inf_or_nan (s : string) : option double :=
  let '(neg, r) := sign s in
  let l := tolower r in
  if bool_decide (l = "inf") || bool_decide (l = "infinity") then Some (Inf neg)
  else if bool_decide (l = "nan") then Some Nan
  else None.

(** [PyOS_string_to_double] when all of the text has to be a number. *)
Definition string_to_double (s : string) : option double :=
  let '(neg, r) := sign s in
  match parse_decimal r with
  | Some (m, e) => Some (of_decimal neg m e)
  | None => parse_inf_or_nan s
  end.

(** [_Py_string_to_number_with_underscores]: an underscore has to stand
    between two digits, and is dropped. *)
Fixpoint remove_underscores (prev : ascii) (s : string) : option string :=
  match s with
  | EmptyString => if bool_decide (prev = "_"%char) then None else Some EmptyString
  | String c r =>
      if bool_decide (c = "_"%char) then
        if isdigit prev then remove_underscores c r else None
      else if bool_decide (prev = "_"%char) && negb (isdigit c) then None
      else String c <$> remove_underscores c r
  end.

(** [float(s)] for a [str]: [ValueError] unless the text, with whitespace
    dropped at both ends, is a number. *)
Definition float (s : string) : result double :=
  match remove_underscores "000"%char (to_ascii s) with
  | None => raise ValueError
  | Some s =>
      match lstrip_with Py_ISSPACE s with
      | EmptyString => raise ValueError
      | s =>
          match string_to_double (rstrip_with Py_ISSPACE s) with
          | Some x => ret x
          | None => raise ValueError
          end
      end
  end.

End Py.

(** ** BeautifulSoup documents and queries *)

Module Bs4.

(** The classes of the strings of a document: plain text, a CDATA section,
    and the strings that [get_text] leaves out ([Comment] and the other
    subclasses of [PreformattedString]). *)
Inductive string_class := NavigableString | CData | Comment.

(** A node of the parsed document: a string, or a tag with its name, the
    values of its [class] attribute, its other attributes and its contents.
    The [BeautifulSoup] object itself is a tag, named [[document]]; the
    [lxml] builder gives tag names in lower case. *)
Local Unset Elimination Schemes.
Inductive element :=
  | Str (cls : string_class) (s : string)
  | Tag (name : string) (classes : list string)
        (attrs : list (string * string)) (contents : list element).
Local Set Elimination Schemes.

(** [BeautifulSoup('', 'lxml')] *)
Definition empty_soup : element := Tag "[document]" [] [] [].

Definition contents (e : element) : list element :=
  match e with
  | Str _ _ => []
  | Tag _ _ _ cs => cs
  end.

(** [tag.get(key, default)] on the attributes other than [class]. *)
Fixpoint assoc (key : string) (l : list (string * string)) : option string :=
  match l with
  | [] => None
  | (k, v) :: r => if bool_decide (k = key) then Some v else assoc key r
  end.

Definition get (e : element) (key dflt : string) : string :=
  match e with
  | Str _ _ => dflt
  | Tag _ _ attrs _ => default dflt (assoc key attrs)
  end.

(** The strings below a tag that [get_text] and [.text] go through, in
    document order: those of the classes [NavigableString] and [CData]
    (the tags that keep strings of a class of their own, such as [script]
    and [style], are not among those the program reads). *)
Definition in_text (cls : string_class) : bool :=
  match cls with
  | NavigableString | CData => true
  | Comment => false
  end.

Fixpoint all_strings (e : element) : list string :=
  match e with
  | Str cls s => if in_text cls then [s] else []
  | Tag _ _ _ cs => flat_map all_strings cs
  end.

Definition nonempty (s : string) : bool :=
  match s with
  | EmptyString => false
  | String _ _ => true
  end.

Definition join (l : list string) : string :=
  fold_right String.append EmptyString l.

(** [tag.text], that is [tag.get_text()] *)
Definition text (e : element) : string := join (all_strings e).

(** [tag.get_text(strip=True)]: each string is stripped by itself, the empty
    ones are left out, and the others are joined with nothing between them. *)
Definition get_text_strip (e : element) : string :=
  join (filter (λ s, nonempty s = true) (Py.strip <$> all_strings e)).

(** [tag.find(string=True, recursive=False)], on the contents of the tag:
    the first child that is a string, of any class. The search tests the
    truth of each child before it looks at it, so that an empty string, which
    no parser makes, is passed over. *)
Fixpoint find_string (cs : list element) : option string :=
  match cs with
  | [] => None
  | Str _ s :: r => if nonempty s then Some s else find_string r
  | Tag _ _ _ _ :: r => find_string r
  end.

(** The selectors of the program: class and type selectors joined by the
    descendant combinator, as in [.tm-table-wrap tbody tr]. *)
Inductive simple_selector := ByClass (c : string) | ByType (n : string).

Definition selector := list simple_selector.

Definition matches (s : simple_selector) (e : element) : bool :=
  match e, s with
  | Tag _ classes _ _, ByClass c => bool_decide (c ∈ classes)
  | Tag name _ _ _, ByType n => bool_decide (name = n)
  | Str _ _, _ => false
  end.

(** The tags at or below [e] that the selector matches, in document order.
    [pending] is what is left of the selector once the ancestors of [e] have
    matched its first parts, each as early as possible. *)
Fixpoint select_from (pending : selector) (e : element) : list element :=
  match e with
  | Str _ _ => []
  | Tag _ _ _ cs =>
      match pending with
      | [] => []
      | [s] =>
          (if matches s e then [e] else []) ++ flat_map (select_from [s]) cs
      | s :: rest =>
          flat_map (select_from (if matches s e then rest else pending)) cs
      end
  end.

(** [tag.select(sel)]: the matching descendants of the tag. *)
Definition select (sel : selector) (e : element) : list element :=
  flat_map (select_from sel) (contents e).

(** [tag.select_one(sel)]: the first of them, or [None]. *)
Definition select_one (sel : selector) (e : element) : option element :=
  head (select sel e).

End Bs4.
(** ** The records of [src/main.py] *)

(** [OwnershipHistory]: the extractor stores the three cell texts. *)
Module OwnershipHistory.

Record t := Build { price : string; date : string; buyer : string }.

End OwnershipHistory.

(** [GiftInfo] *)
Module GiftInfo.

Record t := Build {
  id : Z;
  type : string;
  owner : string;
  model : string;
  backdrop : string;
  symbol : string;
  issued : list string;
  ton_price : option Py.double;
  usd_price : option Py.double;
  is_sale : bool;
  history : list OwnershipHistory.t
}.

End GiftInfo.

(** [Gift]; its [_parser] field, the client that built the record, carries no
    data of the page and is left out. *)
Module Gift.

Record t := Build {
  id : Z;
  name : string;
  type : string;
  price : option Py.double;
  url : string;
  is_sale : bool
}.

End Gift.

(** ** [FragmentClient] *)

Import Bs4.

(** Reading an attribute of the result of [select_one]: on [None] it raises
    [AttributeError]. *)
Definition deref {A} (o : option A) : result A :=
  match o with
  | Some a => ret a
  | None => raise AttributeError
  end.

(** The two locals [price] and [is_sale] that the price blocks assign. *)
Definition price_state : Type := option Py.double * bool.

Definition base_url : string := "https://fragment.com".

(** Line 81: [href.split('/')[-1].split('-')[0]] *)
Definition g_type_of (href : string) : string :=
  Py.item_first (Py.split "-" (Py.item_last (Py.split "/" href))).

Section get_gifts.

(** [urllib.parse.urljoin], which can raise [ValueError] on a malformed
    network location. *)
Variable urljoin : string → string → result string.

(** Lines 85-94: the price of a row. *)
Definition gift_price (item : element) : result price_state :=
  match select_one [ByClass "icon-ton"] item with
  | Some raw_price =>
      try_except
        (let* price :=
           Py.float (Py.replace_empty "," (get_text_strip raw_price)) in
         ret (Some price, true))
        [ValueError]
        (ret (None, false))
  | None => ret (None, false)
  end.

(** Lines 80-104: the body of the loop, from one grid item to its [Gift]. *)
Definition gift_of_item (item : element) : result Gift.t :=
  let href := get item "href" "" in
  let g_type := g_type_of href in
  let* num := deref (select_one [ByClass "item-num"] item) in
  let* g_id := Py.int (Py.tail (Py.strip (text num))) in
  let* name_el := deref (select_one [ByClass "item-name"] item) in
  let name := Py.strip (text name_el) in
  let* st := gift_price item in
  let* url := urljoin base_url href in
  ret (Gift.Build g_id name g_type st.1 url st.2).

(** Lines 77-106: the loop over the grid items; [res] is the list [result]
    of the source, which [result.append] extends. *)
Fixpoint get_gifts_loop (items : list element) (res : list Gift.t)
    : result (list Gift.t) :=
  match items with
  | [] => ret res
  | item :: rest =>
      let* g := gift_of_item item in
      get_gifts_loop rest (res ++ [g])
  end.

(** [get_gifts], from the parsed catalog page on. *)
Definition get_gifts (soup : element) : result (list Gift.t) :=
  get_gifts_loop (select [ByClass "tm-grid-item"] soup) [].

End get_gifts.

(** Lines 112-117: the table of attributes, from the rows of the fixed table
    that have two cells or more; a later row replaces an earlier one of the
    same key. *)
Definition info_table_row (info_table : gmap string element) (row : element)
    : gmap string element :=
  match select [ByType "td"] row with
  | key_cell :: val_cell :: _ =>
      <[Py.lower (get_text_strip key_cell) := val_cell]> info_table
  | _ => info_table
  end.

Definition info_table_of (soup : element) : gmap string element :=
  foldl info_table_row ∅ (select [ByClass "tm-table-fixed"; ByType "tr"] soup).

(** Lines 119-123 *)
Definition clean_val (info_table : gmap string element) (key : string)
    : string :=
  match info_table !! key with
  | None => "Unknown"
  | Some val =>
      let text := get_text_strip val in
      if Py.contains " " text then Py.item_first (Py.rsplit1 " " text)
      else text
  end.

(** Lines 125-126 *)
Definition issued_list_of (info_table : gmap string element) : list string :=
  match info_table !! "issued" with
  | Some issued_data => Py.slice_even (Py.split_ws (get_text_strip issued_data))
  | None => []
  end.

(** Lines 137-144: the price in TON, from the first string that is a child of
    the element itself. *)
Definition ton_block (ton_el : element) : result price_state :=
  try_except
    (match find_string (contents ton_el) with
     | Some ton_raw =>
         if nonempty ton_raw then
           let* ton_price :=
             Py.float (Py.replace_empty "," (Py.strip ton_raw)) in
           ret (Some ton_price, true)
         else ret (None, false)
     | None => ret (None, false)
     end)
    [ValueError; TypeError]
    (ret (None, false)).

(** Lines 146-151: the price in dollars. *)
Definition usd_block (usd_el : element) : result (option Py.double) :=
  try_except
    (let usd_raw := get_text_strip usd_el in
     let* usd_price :=
       Py.float (Py.replace_empty "~"
                   (Py.replace_empty "," (Py.replace_empty "$" usd_raw))) in
     ret (Some usd_price))
    [ValueError]
    (ret None).

(** Lines 128-151: [(ton_price, is_sale)] and [usd_price]. *)
Definition sale_prices (soup : element)
    : result (price_state * option Py.double) :=
  match select_one [ByClass "tm-section-bid-info"] soup with
  | Some price_box =>
      let ton_el := select_one [ByClass "tm-value"] price_box in
      let usd_el := select_one [ByClass "tm-usd-value"] price_box in
      let* ton :=
        match ton_el with
        | Some ton_el => ton_block ton_el
        | None => ret (None, false)
        end in
      let* usd :=
        match usd_el with
        | Some usd_el => usd_block usd_el
        | None => ret None
        end in
      ret (ton, usd)
  | None => ret ((None, false), None)
  end.

(** Lines 153-161: the loop over the rows of the history table, with
    [history.append]. *)
Definition history_row (history : list OwnershipHistory.t) (row : element)
    : list OwnershipHistory.t :=
  match select [ByType "td"] row with
  | c0 :: c1 :: c2 :: _ =>
      history ++ [OwnershipHistory.Build (get_text_strip c0)
                    (get_text_strip c1) (get_text_strip c2)]
  | _ => history
  end.

Definition history_of (soup : element) : list OwnershipHistory.t :=
  foldl history_row []
    (select [ByClass "tm-table-wrap"; ByType "tbody"; ByType "tr"] soup).

(** Line 166: [x or "Unknown"] *)
Definition or_unknown (x : string) : string :=
  if nonempty x then x else "Unknown".

(** [get_gift_info], from the parsed detail page on. *)
Definition get_gift_info (soup : element) (gift_id : Z) (type_gift : string)
    : result GiftInfo.t :=
  let info_table := info_table_of soup in
  let issued_list := issued_list_of info_table in
  let* prices := sale_prices soup in
  let history := history_of soup in
  ret (GiftInfo.Build gift_id type_gift
         (or_unknown
            (get_text_strip (default empty_soup (info_table !! "owner"))))
         (clean_val info_table "model")
         (clean_val info_table "backdrop")
         (clean_val info_table "symbol")
         issued_list
         prices.1.1
         prices.2
         prices.1.2
         history).

(** ** Specification-side definitions *)

(** A row that [get_gifts] can turn into a [Gift]: its id cell is there and
    parses, its name cell is there, and its link joins to the base address. *)
Definition row_complete (urljoin : string → string → result string)
    (item : element) : Prop :=
  (∃ num g_id, select_one [ByClass "item-num"] item = Some num ∧
               Py.int (Py.tail (Py.strip (text num))) = inr g_id) ∧
  (∃ name_el, select_one [ByClass "item-name"] item = Some name_el) ∧
  (∃ url, urljoin base_url (get item "href" "") = inr url).

(** The invariant of the two records. *)
Definition gift_invariant (g : Gift.t) : Prop :=
  Gift.is_sale g = true ↔ is_Some (Gift.price g).

Definition gift_info_invariant (info : GiftInfo.t) : Prop :=
  GiftInfo.is_sale info = true ↔ is_Some (GiftInfo.ton_price info).

(** The id of a row cannot be read: its cell is absent, or [int] refuses
    the text. *)
Definition id_absent (item : element) : Prop :=
  select_one [ByClass "item-num"] item = None.

Definition id_not_numeric (item : element) : Prop :=
  ∃ num, select_one [ByClass "item-num"] item = Some num ∧
         Py.int (Py.tail (Py.strip (text num))) = inl ValueError.

(** The text the primary price is read from: the first string that is a child
    of the [.tm-value] element of the [.tm-section-bid-info] block. *)
Definition primary_price_text (soup : element) : option string :=
  match select_one [ByClass "tm-section-bid-info"] soup with
  | Some price_box =>
      match select_one [ByClass "tm-value"] price_box with
      | Some ton_el => find_string (contents ton_el)
      | None => None
      end
  | None => None
  end.

(** [ton_price] and [is_sale] as the specification gives them from the text
    of the primary price: the parsed number and [True], or [None] and
    [False] when there is no text or it is not a number. *)
Definition ton_state_of (raw : option string) : price_state :=
  match raw with
  | Some ton_raw =>
      match Py.float (Py.replace_empty "," (Py.strip ton_raw)) with
      | inr x => (Some x, true)
      | inl _ => (None, false)
      end
  | None => (None, false)
  end.


(** The entry of the attributes table that a row of the fixed table makes:
    the key is the text of its first cell in lower case, the value its second
    cell; a row with fewer than two cells makes none. *)
Definition row_entry (row : element) : option (string * element) :=
  match select [ByType "td"] row with
  | key_cell :: val_cell :: _ =>
      Some (Py.lower (get_text_strip key_cell), val_cell)
  | _ => None
  end.

(** The value cells of the rows whose key is [key], in document order. *)
Definition cells_of_key (key : string) (rows : list element) : list element :=
  omap (λ row,
      match row_entry row with
      | Some (k, v) => if bool_decide (k = key) then Some v else None
      | None => None
      end) rows.

(** What the specification asks of [model], [backdrop] and [symbol]:
    ["Unknown"] without the key; with it, the text of the cell up to its last
    space, or all of the text when it has no space. *)
Definition cleaned (info_table : gmap string element) (key value : string)
    : Prop :=
  match info_table !! key with
  | None => value = "Unknown"
  | Some cell =>
      let text := get_text_strip cell in
      (Py.contains " " text = false → value = text) ∧
      (∀ a b, text = a +:+ " " +:+ b → Py.contains " " b = false → value = a)
  end.

(** The history entry of a row, as the specification has it: the texts of
    its first three cells, and none for a row with fewer than three. *)
Definition history_entry (row : element) : option OwnershipHistory.t :=
  match select [ByType "td"] row with
  | c0 :: c1 :: c2 :: _ =>
      Some (OwnershipHistory.Build (get_text_strip c0) (get_text_strip c1)
              (get_text_strip c2))
  | _ => None
  end.

(** Splitting a text on runs of whitespace, as a relation: the tokens are
    the runs of characters that are not whitespace, each one followed by
    whitespace or the end of the text. *)
Fixpoint all_space (s : string) : bool :=
  match s with
  | EmptyString => true
  | String c r => Py.isspace c && all_space r
  end.

Fixpoint no_space (s : string) : bool :=
  match s with
  | EmptyString => true
  | String c r => negb (Py.isspace c) && no_space r
  end.

Definition at_space_or_end (s : string) : Prop :=
  match s with
  | EmptyString => True
  | String c _ => Py.isspace c = true
  end.

Inductive ws_tokens : string → list string → Prop :=
  | ws_tokens_nil s :
      all_space s = true → ws_tokens s []
  | ws_tokens_cons pre w rest ws :
      all_space pre = true →
      w ≠ EmptyString → no_space w = true →
      at_space_or_end rest →
      ws_tokens rest ws →
      ws_tokens (pre +:+ w +:+ rest) (w :: ws).

(** [seg] is what follows the last [sep] of [path], and all of [path] when
    it has no [sep]. *)
Definition after_last (sep : ascii) (path seg : string) : Prop :=
  Py.contains sep seg = false ∧
  (path = seg ∨ ∃ p, path = p +:+ String sep seg).

(** [a] is [seg] up to its first [sep], and all of [seg] when it has no
    [sep]. *)
Definition up_to_first (sep : ascii) (seg a : string) : Prop :=
  Py.contains sep a = false ∧
  (seg = a ∨ ∃ b, seg = a +:+ String sep b).

(** Comma-grouped numbers, as the specification names the texts of the
    price cells: groups of digits with commas between them, the first group
    of one to three digits and the others of three, then, if there is a
    point, one digit or more after it. *)
Fixpoint all_chars (p : ascii → bool) (s : string) : bool :=
  match s with
  | EmptyString => true
  | String c r => p c && all_chars p r
  end.

Definition all_digits (s : string) : bool := all_chars Py.isdigit s.

Definition comma_grouped_int (s : string) : bool :=
  match Py.split "," s with
  | g :: gs =>
      all_digits g && (1 <=? Py.strlen g) && (Py.strlen g <=? 3) &&
      forallb (λ g, all_digits g && (Py.strlen g =? 3)) gs
  | [] => false
  end.

Definition comma_grouped (s : string) : bool :=
  match Py.split "." s with
  | [ip] => comma_grouped_int ip
  | [ip; fp] => comma_grouped_int ip && all_digits fp && nonempty fp
  | _ => false
  end.

(** The number that such a text denotes: its digits read in base ten, the
    commas left out, divided by ten for each digit after the point; as a
    [float], the binary64 number nearest to it. *)
Fixpoint digits_of (s : string) : string :=
  match s with
  | EmptyString => EmptyString
  | String c r => if Py.isdigit c then String c (digits_of r) else digits_of r
  end.

Definition grouped_mantissa (s : string) : Z := Py.digits_val 0 (digits_of s).

Definition grouped_exponent (s : string) : Z :=
  match Py.split "." s with
  | [_; fp] => - Py.strlen fp
  | _ => 0
  end.

Definition grouped_number (s : string) : Py.double :=
  Py.of_decimal false (grouped_mantissa s) (grouped_exponent s).

(** The characters of a numeral: digits and the point. *)
Definition numeral_char (c : ascii) : bool :=
  Py.isdigit c || bool_decide (c = "."%char).

(** ** Example documents *)

(** [urljoin] on the links of the examples, which are absolute paths: the
    base address followed by the path. *)
Definition urljoin_path (base url : string) : result string :=
  ret (base +:+ url).

Definition txt (s : string) : element := Str NavigableString s.

Definition div (cls : string) (s : string) : element :=
  Tag "div" [cls] [] [txt s].

Definition grid_item (href : string) (cells : list element) : element :=
  Tag "a" ["tm-grid-item"] [("href", href)] cells.

Definition page (body : list element) : element :=
  Tag "[document]" [] [] [Tag "html" [] [] [Tag "body" [] [] body]].

Definition row_pepe : element :=
  grid_item "/gift/plushpepe-1234"
    [div "item-num" " #1234 "; div "item-name" " Plush Pepe ";
     div "icon-ton" "1,500"].

Definition gift_pepe : Gift.t :=
  Gift.Build 1234 "Plush Pepe" "plushpepe" (Some (Py.Finite false 1500))
    "https://fragment.com/gift/plushpepe-1234" true.

Definition row_no_id : element :=
  grid_item "/gift/plushpepe-77"
    [div "item-name" "Plush Pepe"; div "icon-ton" "900"].

Definition row_bad_id : element :=
  grid_item "/gift/plushpepe-78"
    [div "item-num" "#7x8"; div "item-name" "Plush Pepe"].

Definition row_no_name : element :=
  grid_item "/gift/plushpepe-79" [div "item-num" "#79"; div "icon-ton" "12"].

Definition row_no_price : element :=
  grid_item "/gift/plushpepe-80"
    [div "item-num" "#80"; div "item-name" "Plush Pepe"].

Definition row_sold : element :=
  grid_item "/gift/plushpepe-81"
    [div "item-num" "#81"; div "item-name" "Plush Pepe";
     div "icon-ton" "Sold"].

Definition bid_info (cells : list element) : element :=
  Tag "div" ["tm-section-bid-info"] [] cells.

(** A detail page that shows a price in dollars and none in TON. *)
Definition detail_usd_only : element :=
  page [bid_info [div "tm-usd-value" "~$45.20"]].

(** A detail page that shows a price in TON and none in dollars. *)
Definition detail_ton_only : element :=
  page [bid_info [div "tm-value" "1,500"]].

Definition td (s : string) : element := Tag "td" [] [] [txt s].

Definition tr (cells : list element) : element := Tag "tr" [] [] cells.

(** A detail page with its three parts: the table of attributes, the price
    block (the price in dollars nested in the element of the price in TON)
    and the history table, one row of which has a single cell. *)
Definition detail_pepe : element :=
  page
    [Tag "table" ["tm-table-fixed"] []
       [tr [td " Owner "; td " alice "];
        tr [td "Model"; td "Vintage 3%"];
        tr [td "Backdrop"; td "Rare"];
        tr [td "Symbol"; td " "];
        tr [td "Issued"; td "1,234 of 10,000"]];
     bid_info
       [Tag "div" ["tm-value"] []
          [txt " 1,500 "; div "tm-usd-value" "~$45.20"]];
     Tag "div" ["tm-table-wrap"] []
       [Tag "table" [] []
          [Tag "tbody" [] []
             [tr [td "10 TON"; td "2023-01-01"; td "Alice"];
              tr [td "no sale"];
              tr [td "8 TON"; td "2022-12-01"; td "Bob"]]]]].

(** ** The client: its session and its requests

    Lines 41-73 and 108-110 of [src/main.py], and [Gift.get_info]. The
    sessions of [aiohttp] are handles into [sessions], which keeps for each
    session whether it has been closed. What the libraries do is left open:
    [urljoin], the request of a session with the text of its response, and
    the parser are variables of the section below. *)

Module FragmentClient.

Abbreviation sessions := (gmap nat bool).

(** The attributes of a client that change; [base_url] never does. *)
Record t := Build { _session : option nat; _own_session : bool }.

Definition __init__ (session : option nat) : t := Build session false.

(** [aiohttp.ClientSession()]: a new session, open. *)
Definition ClientSession (w : sessions) : sessions * nat :=
  let s := fresh (dom w) in (<[s := false]> w, s).

(** [session.close()] *)
Definition close (w : sessions) (s : nat) : sessions := <[s := true]> w.

(** Lines 47-51; a session object is always true, so that [not self._session]
    tests for [None]. *)
Definition __aenter__ (w : sessions) (self : t) : sessions * t :=
  match _session self with
  | None => let '(w', s) := ClientSession w in (w', Build (Some s) true)
  | Some _ => (w, self)
  end.

(** Lines 53-55 *)
Definition __aexit__ (w : sessions) (self : t) : sessions * t :=
  match _own_session self, _session self with
  | true, Some s => (close w s, self)
  | _, _ => (w, self)
  end.

(** A client entered and left any number of times, in any order. *)
Inductive call := Enter | Exit.

Definition step (st : sessions * t) (c : call) : sessions * t :=
  match c with
  | Enter => __aenter__ st.1 st.2
  | Exit => __aexit__ st.1 st.2
  end.

Definition run (calls : list call) (st : sessions * t) : sessions * t :=
  foldl step st calls.

(** What a call of the client can raise: an exception of a library, of a
    class [E] that is left open, or one of the exceptions of [exn]. *)
Inductive failure (E : Type) :=
  | LibraryError (e : E)
  | PythonError (e : exn).

Global Arguments LibraryError {E} e.
Global Arguments PythonError {E} e.

Definition and_then {E A B} (m : failure E + A) (k : A → failure E + B)
    : failure E + B :=
  match m with
  | inl f => inl f
  | inr a => k a
  end.

Definition python {E A} (r : result A) : failure E + A :=
  match r with
  | inl e => inl (PythonError e)
  | inr a => inr a
  end.

Definition library {E A} (r : E + A) : failure E + A :=
  match r with
  | inl e => inl (LibraryError e)
  | inr a => inr a
  end.

(** Lines 68-70: [params] *)
Definition request_params (filter : string) (sort : option string)
    : gmap string string :=
  let params : gmap string string := {[ "filter" := filter ]} in
  match sort with
  | Some sort => if nonempty sort then <["sort" := sort]> params else params
  | None => params
  end.

(** Line 72: [path] *)
Definition gifts_path (type_gift : option string) : string :=
  match type_gift with
  | Some type_gift =>
      if nonempty type_gift then "gifts/" +:+ type_gift else "gifts"
  | None => "gifts"
  end.

Section requests.

Context {E : Type}.

Variable urljoin : string → string → result string.

(** [self._session.request(method, url, **kwargs)] followed by
    [resp.text()]; the keyword arguments are [params] or nothing. *)
Variable session_request :
  sessions → nat → string → string → option (gmap string string) → E + string.

(** [BeautifulSoup(html, 'lxml')] *)
Variable BeautifulSoup : string → E + element.

(** Lines 57-60 *)
Definition _request (w : sessions) (self : t) (method path : string)
    (kwargs : option (gmap string string)) : failure E + string :=
  and_then (python (urljoin base_url path)) (λ url,
  and_then (python (deref (_session self))) (λ session,
  library (session_request w session method url kwargs))).

(** Lines 62-106: [get_gifts] with its request. *)
Definition get_gifts (w : sessions) (self : t) (type_gift : option string)
    (filter : string) (sort : option string) : failure E + list Gift.t :=
  let params := request_params filter sort in
  let path := gifts_path type_gift in
  and_then (_request w self "POST" path (Some params)) (λ html,
  and_then (library (BeautifulSoup html)) (λ soup,
  python (get_gifts urljoin soup))).

(** Lines 108-175: [get_gift_info] with its request. *)
Definition get_gift_info (w : sessions) (self : t) (url : string)
    (gift_id : Z) (type_gift : string) : failure E + GiftInfo.t :=
  and_then (_request w self "GET" url None) (λ html,
  and_then (library (BeautifulSoup html)) (λ soup,
  python (get_gift_info soup gift_id type_gift))).

(** Lines 38-39: [Gift.get_info], with [_parser] the client of the gift. *)
Definition get_info (w : sessions) (_parser : t) (self : Gift.t)
    : failure E + GiftInfo.t :=
  get_gift_info w _parser (Gift.url self) (Gift.id self) (Gift.type self).

End requests.

End FragmentClient.

(** ** [main]

    Lines 177-183. What [main] prints is kept as the list of its lines; how
    [print] writes an [int] and a [float] is left open. *)

Section main.

Context {E : Type}.

Variable urljoin : string → string → result string.

Variable session_request :
  gmap nat bool → nat → string → string → option (gmap string string)
  → E + string.

Variable BeautifulSoup : string → E + element.

Variable str_int : Z → string.

Variable str_price : option Py.double → string.




End main.

(** The text of the secondary price: that of the [.tm-usd-value] element of
    the [.tm-section-bid-info] block. *)
Definition usd_price_text (soup : element) : option string :=
  match select_one [ByClass "tm-section-bid-info"] soup with
  | Some price_box =>
      match select_one [ByClass "tm-usd-value"] price_box with
      | Some usd_el => Some (get_text_strip usd_el)
      | None => None
      end
  | None => None
  end.

(** The three characters that the secondary price is cleared of. *)
Definition usd_symbol (c : ascii) : bool :=
  bool_decide (c = "$"%char) || bool_decide (c = ","%char) ||
  bool_decide (c = "~"%char).

(** [usd_price] from the text of the secondary price: the number that
    [float] reads once the three characters are taken out, or [None]. *)
Definition usd_state_of (raw : option string) : option Py.double :=
  match raw with
  | Some usd_raw =>
      match Py.float (Py.replace_empty "~" (Py.replace_empty ","
                        (Py.replace_empty "$" usd_raw))) with
      | inr x => Some x
      | inl _ => None
      end
  | None => None
  end.

(** A text that does not begin with whitespace. *)
Definition no_space_first (s : string) : Prop :=
  match s with
  | EmptyString => True
  | String c _ => Py.isspace c = false
  end.

(** A session that answers every request with the same text, a session
    that is down, and a parser that gives the example detail page. *)
Definition answer_request (html : string) (w : gmap nat bool) (session : nat)
    (method url : string) (kwargs : option (gmap string string))
    : string + string :=
  inr html.

Definition failed_request (w : gmap nat bool) (session : nat)
    (method url : string) (kwargs : option (gmap string string))
    : string + string :=
  inl "ClientConnectionError".

Definition parse_detail_pepe (html : string) : string + element :=
  inr detail_pepe.

(** [urljoin] on an address that is absolute already: the address itself. *)
Definition urljoin_absolute (base url : string) : result string := ret url.

(** [urljoin] of the base address, which has no path, and a path that does
    not begin with a slash: the two with a slash between them. *)
Definition urljoin_relative (base url : string) : result string :=
  ret (base +:+ "/" +:+ url).

(** * Properties *)

(** ** The exception monad *)

Lemma bind_inr {A B} (m : result A) (k : A → result B) (b : B) :
  bind m k = inr b ↔ ∃ a, m = inr a ∧ k a = inr b.
Proof.
  destruct m as [e|a]; simpl; split.
  - discriminate.
  - intros (a & Ha & _). discriminate.
  - eauto.
  - intros (a' & [= <-] & Hk). exact Hk.
Qed.

(** ** Strings *)

Lemma string_app_cons c (r s : string) :
  String c r +:+ s = String c (r +:+ s).
Proof. reflexivity. Qed.

Lemma string_app_nil_r (s : string) : s +:+ "" = s.
Proof.
  induction s as [|c r IH]; [done|]. by rewrite string_app_cons, IH.
Qed.

Lemma contains_app c a b :
  Py.contains c (a +:+ b) = Py.contains c a || Py.contains c b.
Proof.
  induction a as [|d a IH]; simpl; [done|]. by rewrite IH, orb_assoc.
Qed.

Lemma contains_cons_false c d s :
  Py.contains c (String d s) = false → d ≠ c ∧ Py.contains c s = false.
Proof.
  simpl. intros [Hd Hs]%orb_false_elim.
  split; [|done]. by apply bool_decide_eq_false in Hd.
Qed.

Lemma all_chars_app p a b :
  all_chars p (a +:+ b) = all_chars p a && all_chars p b.
Proof.
  induction a as [|c a IH]; simpl; [done|]. by rewrite IH, andb_assoc.
Qed.

Lemma all_chars_impl (p q : ascii → bool) s :
  (∀ c, p c = true → q c = true) →
  all_chars p s = true → all_chars q s = true.
Proof.
  intros Hpq. induction s as [|c r IH]; simpl; [done|].
  intros [Hc Hr]%andb_prop. by rewrite (Hpq c Hc), IH.
Qed.

(** *** [rsplit(sep, 1)] *)

Lemma rsplit1_no_sep sep s :
  Py.contains sep s = false → Py.rsplit1 sep s = [s].
Proof.
  induction s as [|c r IH]; [done|].
  intros [Hc Hr]%contains_cons_false. simpl.
  rewrite (IH Hr). by rewrite bool_decide_eq_false_2.
Qed.

Lemma rsplit1_last_sep sep a b :
  Py.contains sep b = false → Py.rsplit1 sep (a +:+ String sep b) = [a; b].
Proof.
  intros Hb. induction a as [|c a IH]; simpl.
  - rewrite (rsplit1_no_sep sep b Hb). by rewrite bool_decide_eq_true_2.
  - by rewrite IH.
Qed.

(** A text with a space has a last space. *)
Lemma last_space_exists text :
  Py.contains " " text = true →
  ∃ a b, text = a +:+ " " +:+ b ∧ Py.contains " " b = false.
Proof.
  induction text as [|c r IH]; [done|]. simpl.
  destruct (Py.contains " " r) eqn:Hr.
  - intros _. destruct (IH eq_refl) as (a & b & -> & Hb).
    by exists (String c a), b.
  - rewrite orb_false_r. intros ->%bool_decide_eq_true.
    by exists "", r.
Qed.

(** *** [split(sep)] *)

Lemma split_nonempty sep s : Py.split sep s ≠ [].
Proof.
  destruct s as [|c r]; simpl; [done|].
  case_bool_decide; [done|]. by destruct (Py.split sep r).
Qed.

Lemma split_no_sep sep s : Py.contains sep s = false → Py.split sep s = [s].
Proof.
  induction s as [|c r IH]; [done|].
  intros [Hc Hr]%contains_cons_false. simpl.
  rewrite bool_decide_eq_false_2 by done. by rewrite (IH Hr).
Qed.

(** [(a + sep + b).split(sep) == a.split(sep) + b.split(sep)] *)
Lemma split_app_sep sep a b :
  Py.split sep (a +:+ String sep b) = Py.split sep a ++ Py.split sep b.
Proof.
  induction a as [|c a IH]; simpl.
  - by rewrite bool_decide_eq_true_2.
  - case_bool_decide; rewrite IH; [done|].
    pose proof (split_nonempty sep a).
    by destruct (Py.split sep a).
Qed.

Lemma item_last_app l1 l2 :
  l2 ≠ [] → Py.item_last (l1 ++ l2) = Py.item_last l2.
Proof.
  intros Hl2. unfold Py.item_last.
  induction l1 as [|x l1 IH]; [done|].
  simpl. rewrite IH. destruct (l1 ++ l2) eqn:Happ; [|done].
  by apply app_eq_nil in Happ as [_ ->].
Qed.

Lemma split_singleton sep s x :
  Py.split sep s = [x] → s = x ∧ Py.contains sep s = false.
Proof.
  revert x. induction s as [|c r IH]; intros x; simpl.
  - by intros [= <-].
  - case_bool_decide as Hc.
    + intros [= _ Hr]. by destruct (split_nonempty sep r).
    + destruct (Py.split sep r) as [|w ws] eqn:Hr;
        [by destruct (split_nonempty sep r)|].
      intros [= <- ->]. destruct (IH w eq_refl) as [-> Hno].
      done.
Qed.

Lemma split_pair sep s a b :
  Py.split sep s = [a; b] →
  s = a +:+ String sep b ∧
  Py.contains sep a = false ∧ Py.contains sep b = false.
Proof.
  revert a. induction s as [|c r IH]; intros a; simpl; [done|].
  case_bool_decide as Hc.
  - intros [= <- Hr]. apply split_singleton in Hr as [-> Hno]. by subst c.
  - destruct (Py.split sep r) as [|w ws] eqn:Hr;
      [by destruct (split_nonempty sep r)|].
    intros [= <- ->]. destruct (IH w eq_refl) as (-> & Hw & Hb).
    split_and!; [done| |done]. simpl. by rewrite bool_decide_eq_false_2.
Qed.

(** The pieces of a text are all in a class of characters exactly when the
    text is made of that class and the separator. *)
Lemma split_all_chars p sep s :
  forallb (all_chars p) (Py.split sep s) =
  all_chars (λ c, p c || bool_decide (c = sep)) s.
Proof.
  induction s as [|c r IH]; [done|]. simpl.
  case_bool_decide as Hc.
  - simpl. by rewrite IH, orb_true_r.
  - rewrite orb_false_r, <- IH.
    destruct (Py.split sep r) as [|w ws] eqn:Hr;
      [by destruct (split_nonempty sep r)|].
    simpl. by rewrite andb_assoc.
Qed.

Lemma split_head sep s c g gs :
  Py.split sep s = String c g :: gs → ∃ r, s = String c r.
Proof.
  destruct s as [|d r]; simpl; [done|].
  case_bool_decide; [done|].
  destruct (Py.split sep r); intros [= -> _ _]; eauto.
Qed.

Lemma after_last_split sep path seg :
  after_last sep path seg → Py.item_last (Py.split sep path) = seg.
Proof.
  intros [Hseg [->|[p ->]]].
  - by rewrite split_no_sep.
  - rewrite split_app_sep, item_last_app by apply split_nonempty.
    by rewrite split_no_sep.
Qed.

Lemma up_to_first_split sep seg a :
  up_to_first sep seg a → Py.item_first (Py.split sep seg) = a.
Proof.
  intros [Ha [->|[b ->]]].
  - by rewrite split_no_sep.
  - rewrite split_app_sep. by rewrite split_no_sep.
Qed.

Lemma after_last_exists sep path : ∃ seg, after_last sep path seg.
Proof.
  induction path as [|c r (seg & Hseg & Hr)].
  - exists "". split; [done|]. by left.
  - destruct Hr as [->|[p ->]].
    + destruct (decide (c = sep)) as [->|Hc].
      * exists seg. split; [done|]. right. by exists "".
      * exists (String c seg). split; [|by left].
        simpl. by rewrite bool_decide_eq_false_2.
    + exists seg. split; [done|]. right. by exists (String c p).
Qed.

Lemma up_to_first_exists sep seg : ∃ a, up_to_first sep seg a.
Proof.
  induction seg as [|c r (a & Ha & Hr)].
  - exists "". split; [done|]. by left.
  - destruct (decide (c = sep)) as [->|Hc].
    + exists "". split; [done|]. right. by exists r.
    + exists (String c a). split.
      * simpl. by rewrite bool_decide_eq_false_2.
      * destruct Hr as [->|[b ->]]; [by left|]. right. by exists b.
Qed.

(** *** [split()] and the slice [[0::2]] *)

Lemma split_ws_cons c r :
  Py.split_ws (String c r) =
  if Py.isspace c then Py.split_ws r
  else match r with
       | EmptyString => [String c EmptyString]
       | String d _ =>
           if Py.isspace d then String c EmptyString :: Py.split_ws r
           else match Py.split_ws r with
                | w :: ws => String c w :: ws
                | [] => [String c EmptyString]
                end
       end.
Proof. reflexivity. Qed.

Lemma split_ws_all_space s : all_space s = true → Py.split_ws s = [].
Proof.
  induction s as [|c r IH]; [done|].
  simpl all_space. intros [Hc Hr]%andb_prop.
  rewrite split_ws_cons, Hc. by apply IH.
Qed.

Lemma split_ws_skip pre s :
  all_space pre = true → Py.split_ws (pre +:+ s) = Py.split_ws s.
Proof.
  induction pre as [|c pre IH]; [done|].
  simpl all_space. intros [Hc Hpre]%andb_prop.
  change (String c pre +:+ s) with (String c (pre +:+ s)).
  rewrite split_ws_cons, Hc. by apply IH.
Qed.

Lemma split_ws_word w rest :
  w ≠ EmptyString → no_space w = true → at_space_or_end rest →
  Py.split_ws (w +:+ rest) = w :: Py.split_ws rest.
Proof.
  intros Hne Hw Hrest. induction w as [|c w IH]; [done|].
  simpl no_space in Hw. apply andb_prop in Hw as [Hc Hw].
  apply negb_true_iff in Hc.
  change (String c w +:+ rest) with (String c (w +:+ rest)).
  rewrite split_ws_cons, Hc.
  destruct w as [|d w].
  - change (EmptyString +:+ rest) with rest.
    destruct rest as [|d rest]; [done|].
    simpl in Hrest. by rewrite Hrest.
  - change (String d w +:+ rest) with (String d (w +:+ rest)) in *.
    simpl no_space in Hw. apply andb_prop in Hw as Hw'.
    destruct Hw' as [Hd%negb_true_iff _]. rewrite Hd.
    by rewrite IH.
Qed.

(** The relation has one solution, and [split()] computes it. *)
Lemma ws_tokens_split_ws s tokens :
  ws_tokens s tokens ↔ tokens = Py.split_ws s.
Proof.
  split.
  - induction 1 as [s Hs|pre w rest ws Hpre Hne Hw Hrest _ IH].
    + by rewrite split_ws_all_space.
    + rewrite split_ws_skip, split_ws_word by done. by rewrite IH.
  - intros ->. induction s as [|c r IH]; [by constructor|].
    assert (∀ w rest ws,
              Py.isspace c = false → no_space w = true →
              at_space_or_end rest → ws_tokens rest ws →
              ws_tokens (String c (w +:+ rest)) (String c w :: ws)) as Hword.
    { intros w rest ws Hc Hw Hrest Hws.
      apply (ws_tokens_cons "" (String c w) rest ws); try done.
      simpl. by rewrite Hc. }
    rewrite split_ws_cons. destruct (Py.isspace c) eqn:Hc.
    + inversion IH as [s Hs|pre w rest ws Hpre Hne Hw Hrest Hws Heq Hl].
      * constructor. simpl. by rewrite Hc.
      * apply (ws_tokens_cons (String c pre) w rest ws); try done.
        simpl. by rewrite Hc.
    + destruct r as [|d r].
      * apply (Hword "" "" []); try done; by constructor.
      * destruct (Py.isspace d) eqn:Hd.
        -- by apply (Hword "" (String d r)).
        -- inversion IH as [s Hs|pre w rest ws Hpre Hne Hw Hrest Hws Heq Hl].
           ++ simpl in Hs. by rewrite Hd in Hs.
           ++ destruct pre as [|p pre].
              ** by apply (Hword w rest ws).
              ** simpl in Heq. injection Heq as -> _.
                 simpl in Hpre. by rewrite Hd in Hpre.
Qed.

Lemma slice_even_lookup {A} (l : list A) (i : nat) :
  Py.slice_even l !! i = l !! (2 * i)%nat.
Proof.
  assert (∀ l : list A,
            (∀ i, Py.slice_even l !! i = l !! (2 * i)%nat) ∧
            (∀ x i, Py.slice_even (x :: l) !! i = (x :: l) !! (2 * i)%nat))
    as H; [|apply H].
  clear. induction l as [|y l [IH1 IH2]].
  - split; [done|]. intros x [|i]; [done|].
    simpl. by replace (i + S (i + 0))%nat with (S (2 * i)) by lia.
  - split; [apply IH2|]. intros x [|i]; [done|].
    replace (2 * S i)%nat with (S (S (2 * i))) by lia. simpl. apply IH1.
Qed.

(** ** Numbers from text *)

(** [int] and [float] raise nothing but [ValueError]. *)
Lemma int_raises s e : Py.int s = inl e → e = ValueError.
Proof.
  unfold Py.int.
  destruct (Py.sign _) as [neg r].
  unfold raise, ret. repeat case_match; congruence.
Qed.

Lemma float_raises s e : Py.float s = inl e → e = ValueError.
Proof.
  unfold Py.float, raise, ret. repeat case_match; congruence.
Qed.

(** *** Integers that binary64 holds *)

Lemma round_half_even_one n : Py.round_half_even n 1 = n.
Proof.
  unfold Py.round_half_even. rewrite Z.mod_1_r, Z.div_1_r. done.
Qed.

Lemma Qred_integer n : Qred (Qmake n 1) = Qmake n 1.
Proof.
  unfold Qred.
  pose proof (Z.ggcd_gcd n 1) as Hg.
  pose proof (Z.ggcd_correct_divisors n 1) as Hd.
  destruct (Z.ggcd n 1) as [g [a b]]. simpl in *.
  rewrite Z.gcd_1_r in Hg. subst g. destruct Hd as [Ha Hb].
  rewrite Z.mul_1_l in Ha, Hb. by subst a b.
Qed.

Lemma Qred_scaled n k :
  0 ≤ k → Qred (Qmake (n * 2 ^ k) (Z.to_pos (2 ^ k))) = Qmake n 1.
Proof.
  intros Hk.
  assert (0 < 2 ^ k) as Hpos by (apply Z.pow_pos_nonneg; lia).
  rewrite <- (Qred_integer n).
  apply Qred_complete. unfold Qeq. simpl.
  rewrite Z2Pos.id by done. lia.
Qed.

(** An integer below [2^53] is a binary64 number. *)
Lemma of_decimal_exact n :
  0 ≤ n < 2 ^ 53 → Py.of_decimal false n 0 = Py.Finite false (Qmake n 1).
Proof.
  intros [Hlo Hhi]. unfold Py.of_decimal.
  destruct (Z.eqb_spec n 0) as [->|Hn]; [done|].
  change (0 <=? 0) with true. cbv iota.
  rewrite Z.pow_0_r, Z.mul_1_r.
  assert (0 < n) as Hpos by lia.
  pose proof (Z.log2_spec n Hpos) as [Hl1 Hl2].
  pose proof (Z.log2_nonneg n) as Hl0.
  assert (Z.log2 n < 53) as Hl53.
  { apply Z.log2_lt_pow2; lia. }
  unfold Py.binary64. change (Z.log2 1) with 0. rewrite Z.sub_0_r.
  remember (Z.log2 n) as e eqn:He.
  assert (∀ a b, Py.mul_pow2 n 1 (- e) = (a, b) → (a <? b) = false) as Hab.
  { intros a b. unfold Py.mul_pow2. destruct (Z.leb_spec 0 (- e)).
    - replace (- e) with 0 by lia. intros [= <- <-]. apply Z.ltb_ge. lia.
    - rewrite Z.opp_involutive. intros [= <- <-]. apply Z.ltb_ge. lia. }
  destruct (Py.mul_pow2 n 1 (- e)) as [a b]. rewrite (Hab a b eq_refl).
  clear Hab a b.
  rewrite Z.max_l by lia.
  unfold Py.mul_pow2. 
  replace (- (e - 52)) with (52 - e) by lia.
  destruct (Z.leb_spec 0 (52 - e)); [|lia].
  rewrite round_half_even_one.
  destruct (Z.leb_spec 0 (e - 52)).
  - assert (e = 52) as -> by lia. change (52 - 52) with 0.
    rewrite !Z.pow_0_r, !Z.mul_1_r.
    destruct (Z.leb_spec (2 ^ 1024) n); [|done].
    assert (2 ^ 53 < 2 ^ 1024) by (apply Z.pow_lt_mono_r; lia). lia.
  - by rewrite Qred_scaled by lia.
Qed.

Lemma grouped_number_exact t :
  grouped_exponent t = 0 → 0 ≤ grouped_mantissa t < 2 ^ 53 →
  grouped_number t = Py.Finite false (Qmake (grouped_mantissa t) 1).
Proof.
  intros He Hm. unfold grouped_number. rewrite He.
  by apply of_decimal_exact.
Qed.

(** *** [float] on plain decimal numerals *)

(** What the parsers need to know of a digit. *)
Lemma digit_facts c :
  Py.isdigit c = true →
  Py.Py_ISSPACE c = false ∧ (Py.ord c <? 128) = true ∧
  c ≠ "_"%char ∧ c ≠ ","%char ∧ c ≠ "."%char ∧
  ∀ r, Py.sign (String c r) = (false, String c r).
Proof.
  destruct c as [[] [] [] [] [] [] [] []]; vm_compute; intros H;
    try discriminate H; by repeat split.
Qed.

Lemma numeral_char_facts c :
  numeral_char c = true →
  Py.Py_ISSPACE c = false ∧ (Py.ord c <? 128) = true ∧
  c ≠ "_"%char ∧ c ≠ ","%char.
Proof.
  unfold numeral_char. intros [H|H]%orb_prop.
  - apply digit_facts in H. tauto.
  - apply bool_decide_eq_true in H as ->. by vm_compute.
Qed.

Lemma numeral_is_ascii s :
  all_chars numeral_char s = true → Py.to_ascii s = s.
Proof.
  intros H. unfold Py.to_ascii.
  assert (Py.is_ascii s = true) as ->; [|done].
  induction s as [|c r IH]; simpl in *; [done|].
  apply andb_prop in H as [Hc Hr].
  apply numeral_char_facts in Hc as (_ & -> & _). by rewrite IH.
Qed.

Lemma numeral_no_underscore prev s :
  prev ≠ "_"%char → all_chars numeral_char s = true →
  Py.remove_underscores prev s = Some s.
Proof.
  revert prev. induction s as [|c r IH]; intros prev Hprev; simpl.
  - by rewrite bool_decide_eq_false_2.
  - intros [Hc Hr]%andb_prop.
    apply numeral_char_facts in Hc as (_ & _ & Hc & _).
    rewrite bool_decide_eq_false_2 by done.
    rewrite (bool_decide_eq_false_2 (prev = "_"%char)) by done. simpl.
    by rewrite IH.
Qed.

Lemma rstrip_with_none p s :
  all_chars (λ c, negb (p c)) s = true → Py.rstrip_with p s = s.
Proof.
  induction s as [|c r IH]; simpl; [done|].
  intros [Hc%negb_true_iff Hr]%andb_prop. rewrite (IH Hr), Hc.
  by destruct r.
Qed.

Lemma span_digits_all ds rest :
  all_digits ds = true →
  match rest with
  | EmptyString => True
  | String c _ => Py.isdigit c = false
  end →
  Py.span_digits (ds +:+ rest) = (ds, rest).
Proof.
  intros Hds Hrest. induction ds as [|c ds IH]; simpl.
  - destruct rest as [|c r]; [done|]. simpl. by rewrite Hrest.
  - simpl in Hds. apply andb_prop in Hds as [Hc Hds].
    simpl in Hc. rewrite Hc. by rewrite (IH Hds).
Qed.

Lemma span_digits_digits ds :
  all_digits ds = true → Py.span_digits ds = (ds, "").
Proof.
  intros Hds. rewrite <- (string_app_nil_r ds) at 1.
  by apply span_digits_all.
Qed.

(** A numeral made of digits, or of digits, a point and digits, is what
    [float] reads as the decimal number of these digits. *)
Lemma float_decimal ds fp (point : bool) :
  all_digits ds = true → ds ≠ "" → all_digits fp = true →
  (point = false → fp = "") →
  Py.float (ds +:+ (if point then String "." fp else "")) =
  inr (Py.of_decimal false (Py.digits_val 0 (ds +:+ fp)) (- Py.strlen fp)).
Proof.
  intros Hds Hne Hfp Hpoint.
  set (tail := if point then String "." fp else "").
  assert (all_chars numeral_char (ds +:+ tail) = true) as Hnum.
  { rewrite all_chars_app. apply andb_true_intro. split.
    - revert Hds. apply all_chars_impl. intros c Hc.
      unfold numeral_char. by rewrite Hc.
    - subst tail. destruct point; [|done]. simpl.
      revert Hfp. apply all_chars_impl. intros c Hc.
      unfold numeral_char. by rewrite Hc. }
  assert (all_chars (λ c, negb (Py.Py_ISSPACE c)) (ds +:+ tail) = true)
    as Hnospace.
  { revert Hnum. apply all_chars_impl. intros c Hc.
    apply numeral_char_facts in Hc as (-> & _). done. }
  assert (match tail with
          | EmptyString => True
          | String c _ => Py.isdigit c = false
          end) as Htail.
  { subst tail. by destruct point. }
  unfold Py.float.
  rewrite (numeral_is_ascii _ Hnum).
  rewrite (numeral_no_underscore "000"%char _ ltac:(done) Hnum).
  destruct ds as [|c ds]; [done|].
  pose proof Hds as Hc. simpl in Hc. apply andb_prop in Hc as [Hc _].
  apply digit_facts in Hc as (Hsp & _ & _ & _ & _ & Hsign).
  rewrite string_app_cons in *. simpl Py.lstrip_with. rewrite Hsp.
  rewrite (rstrip_with_none _ _ Hnospace).
  unfold Py.string_to_double. rewrite Hsign.
  unfold Py.parse_decimal. rewrite <- string_app_cons.
  rewrite (span_digits_all _ _ Hds Htail).
  subst tail. destruct point.
  - rewrite (span_digits_digits _ Hfp). by rewrite string_app_cons.
  - rewrite (Hpoint eq_refl). by rewrite string_app_cons.
Qed.

(** *** Comma-grouped numbers *)

Lemma all_digits_cons c r :
  all_digits (String c r) = Py.isdigit c && all_digits r.
Proof. reflexivity. Qed.

Lemma digits_of_cons c r :
  digits_of (String c r) =
  if Py.isdigit c then String c (digits_of r) else digits_of r.
Proof. reflexivity. Qed.

Lemma digits_of_all_digits s : all_digits (digits_of s) = true.
Proof.
  induction s as [|c r IH]; [done|]. rewrite digits_of_cons.
  destruct (Py.isdigit c) eqn:Hc; [|done].
  by rewrite all_digits_cons, Hc.
Qed.

Lemma digits_of_digits s : all_digits s = true → digits_of s = s.
Proof.
  induction s as [|c r IH]; [done|]. rewrite all_digits_cons, digits_of_cons.
  intros [-> Hr]%andb_prop. by rewrite IH.
Qed.

Lemma digits_of_app a b : digits_of (a +:+ b) = digits_of a +:+ digits_of b.
Proof.
  induction a as [|c a IH]; [done|].
  rewrite string_app_cons, !digits_of_cons.
  destruct (Py.isdigit c); by rewrite IH.
Qed.

Lemma replace_empty_app c a b :
  Py.replace_empty c (a +:+ b) = Py.replace_empty c a +:+ Py.replace_empty c b.
Proof.
  induction a as [|d a IH]; [done|]. rewrite string_app_cons. simpl.
  case_bool_decide; by rewrite IH.
Qed.

Lemma replace_comma_digits s :
  all_chars (λ c, Py.isdigit c || bool_decide (c = ","%char)) s = true →
  Py.replace_empty "," s = digits_of s.
Proof.
  induction s as [|c r IH]; [done|]. rewrite digits_of_cons.
  simpl all_chars. simpl Py.replace_empty.
  intros [Hc Hr]%andb_prop. rewrite (IH Hr).
  destruct (Py.isdigit c) eqn:Hd.
  - apply digit_facts in Hd as (_ & _ & _ & Hcomma & _).
    by rewrite bool_decide_eq_false_2.
  - simpl in Hc. by rewrite Hc.
Qed.

(** The integer part of a comma-grouped number: made of digits and commas,
    and beginning with a digit. *)
Lemma comma_grouped_int_chars ip :
  comma_grouped_int ip = true →
  all_chars (λ c, Py.isdigit c || bool_decide (c = ","%char)) ip = true ∧
  digits_of ip ≠ "".
Proof.
  unfold comma_grouped_int.
  destruct (Py.split "," ip) as [|g gs] eqn:Hsplit; [done|].
  rewrite !andb_true_iff. intros [[[Hg Hlen] _] Hgs]. split.
  - rewrite <- split_all_chars, Hsplit. clear Hsplit Hlen.
    simpl. fold (all_digits g). rewrite Hg. simpl.
    induction gs as [|x gs IH]; [done|]. simpl in *.
    apply andb_prop in Hgs as [[Hx _]%andb_prop Hgs].
    fold (all_digits x). by rewrite Hx, IH.
  - destruct g as [|c g]; [done|].
    apply split_head in Hsplit as (r & ->).
    rewrite all_digits_cons in Hg. apply andb_prop in Hg as [Hc _].
    by rewrite digits_of_cons, Hc.
Qed.

(** [float] reads a comma-grouped number, its commas taken out, as the
    number it denotes. *)
Lemma float_comma_grouped t :
  comma_grouped t = true →
  Py.float (Py.replace_empty "," t) = inr (grouped_number t).
Proof.
  unfold comma_grouped, grouped_number, grouped_mantissa, grouped_exponent.
  destruct (Py.split "." t) as [|ip [|fp [|]]] eqn:Hsplit; try done.
  - apply split_singleton in Hsplit as [-> _].
    intros [Hchars Hne]%comma_grouped_int_chars.
    rewrite (replace_comma_digits _ Hchars).
    pose proof (float_decimal (digits_of ip) "" false
                  (digits_of_all_digits ip) Hne eq_refl (λ _, eq_refl)) as H.
    cbv iota in H. rewrite !string_app_nil_r in H. exact H.
  - apply split_pair in Hsplit as (-> & _ & _).
    rewrite !andb_true_iff.
    intros [[[Hchars Hne]%comma_grouped_int_chars Hfp] _].
    rewrite replace_empty_app, digits_of_app.
    rewrite (replace_comma_digits _ Hchars).
    change (Py.replace_empty "," (String "." fp))
      with (String "."%char (Py.replace_empty "," fp)).
    rewrite replace_comma_digits; last first.
    { revert Hfp. apply all_chars_impl. by intros c ->. }
    change (digits_of (String "." fp)) with (digits_of fp).
    rewrite (digits_of_digits _ Hfp).
    exact (float_decimal (digits_of ip) fp true
             (digits_of_all_digits ip) Hne Hfp (λ H, match H with end)).
Qed.

(** Texts that are comma-grouped numbers, and texts that are not numbers. *)
Example comma_grouped_examples :
  comma_grouped "1,500" = true ∧ comma_grouped "900" = true ∧
  comma_grouped "1,234,567.25" = true ∧ comma_grouped "12,34" = false ∧
  comma_grouped ",500" = false ∧ comma_grouped "" = false ∧
  grouped_number "1,234,567.25" = Py.Finite false (Qmake 4938269 4).
Proof. by vm_compute. Qed.

Example float_refused_examples :
  Forall (λ s, Py.float (Py.replace_empty "," s) = inl ValueError)
    (["Sold"; ""; "N/A"; "1.2.3"; "12 TON"; "-"] : list string).
Proof. repeat constructor. Qed.

(** ** The listing extractor *)

Lemma gift_price_total item :
  ∃ st, gift_price item = inr st ∧ (st.2 = true ↔ is_Some st.1).
Proof.
  unfold gift_price.
  destruct (select_one _ item) as [raw_price|]; simpl.
  - destruct (Py.float _) as [e|x] eqn:Hf; simpl.
    + apply float_raises in Hf as ->. simpl.
      exists (None, false). split; [done|]. simpl.
      split; [done | by intros [? ?]].
    + exists (Some x, true). simpl. split; [done|]. split; eauto.
  - exists (None, false). split; [done|]. simpl.
    split; [done | by intros [? ?]].
Qed.

Lemma gift_price_absent item :
  select_one [ByClass "icon-ton"] item = None →
  gift_price item = inr (None, false).
Proof. unfold gift_price. by intros ->. Qed.

Lemma gift_price_cell item raw_price :
  select_one [ByClass "icon-ton"] item = Some raw_price →
  gift_price item =
  inr match Py.float (Py.replace_empty "," (get_text_strip raw_price)) with
      | inr x => (Some x, true)
      | inl _ => (None, false)
      end.
Proof.
  unfold gift_price. intros ->.
  destruct (Py.float _) as [e|x] eqn:Hf; [|done].
  by apply float_raises in Hf as ->.
Qed.

Section get_gifts_facts.

Variable urljoin : string → string → result string.

(** What a returned [Gift] is made of. *)
Lemma gift_of_item_inr item g :
  gift_of_item urljoin item = inr g ↔
  ∃ num g_id name_el st url,
    select_one [ByClass "item-num"] item = Some num ∧
    Py.int (Py.tail (Py.strip (text num))) = inr g_id ∧
    select_one [ByClass "item-name"] item = Some name_el ∧
    gift_price item = inr st ∧
    urljoin base_url (get item "href" "") = inr url ∧
    g = Gift.Build g_id (Py.strip (text name_el))
          (g_type_of (get item "href" "")) st.1 url st.2.
Proof.
  unfold gift_of_item. split.
  - intros H.
    apply bind_inr in H as (num & Hnum & H).
    apply bind_inr in H as (g_id & Hid & H).
    apply bind_inr in H as (name_el & Hname & H).
    apply bind_inr in H as (st & Hst & H).
    apply bind_inr in H as (url & Hurl & H).
    injection H as <-.
    destruct (select_one [ByClass "item-num"] item); [|discriminate].
    destruct (select_one [ByClass "item-name"] item); [|discriminate].
    injection Hnum as ->. injection Hname as ->.
    by exists num, g_id, name_el, st, url.
  - intros (num & g_id & name_el & st & url & -> & Hid & -> & Hst & Hurl & ->).
    simpl. rewrite Hid. simpl. rewrite Hst. simpl. by rewrite Hurl.
Qed.

Lemma gift_of_item_complete item :
  row_complete urljoin item → ∃ g, gift_of_item urljoin item = inr g.
Proof.
  intros ((num & g_id & Hnum & Hid) & (name_el & Hname) & (url & Hurl)).
  destruct (gift_price_total item) as (st & Hst & _).
  eexists. apply gift_of_item_inr.
  by exists num, g_id, name_el, st, url.
Qed.

(** The loop returns exactly when every row gives a [Gift], and then the
    gifts come in the order of the rows, after those already in [res]. *)
Lemma get_gifts_loop_inr items res out :
  get_gifts_loop urljoin items res = inr out ↔
  ∃ gs, Forall2 (λ item g, gift_of_item urljoin item = inr g) items gs ∧
        out = res ++ gs.
Proof.
  revert res out. induction items as [|item rest IH]; intros res out; simpl.
  - split.
    + intros [= <-]. exists []. by rewrite app_nil_r.
    + intros (gs & Hgs & ->). apply Forall2_nil_inv_l in Hgs as ->.
      by rewrite app_nil_r.
  - rewrite bind_inr. split.
    + intros (g & Hg & Hloop). apply IH in Hloop as (gs & Hgs & ->).
      exists (g :: gs). split; [by constructor|]. by rewrite <- app_assoc.
    + intros (gs & Hgs & ->).
      apply Forall2_cons_inv_l in Hgs as (g & gs' & Hg & Hgs & ->).
      exists g. split; [done|]. apply IH. exists gs'. split; [done|].
      by rewrite <- app_assoc.
Qed.

(** One row that raises makes the loop raise. *)
Lemma get_gifts_loop_raises items res item :
  item ∈ items →
  (∃ e, gift_of_item urljoin item = inl e) →
  ∃ e, get_gifts_loop urljoin items res = inl e.
Proof.
  intros Hin (e & He).
  destruct (get_gifts_loop urljoin items res) as [e'|out] eqn:Hloop; [eauto|].
  apply get_gifts_loop_inr in Hloop as (gs & Hgs & _).
  apply list_elem_of_lookup in Hin as (i & Hi).
  destruct (Forall2_lookup_l _ _ _ _ _ Hgs Hi) as (g & _ & Hg).
  congruence.
Qed.

Lemma get_gifts_inr soup gs :
  get_gifts urljoin soup = inr gs ↔
  Forall2 (λ item g, gift_of_item urljoin item = inr g)
    (select [ByClass "tm-grid-item"] soup) gs.
Proof.
  unfold get_gifts. rewrite get_gifts_loop_inr. simpl. split.
  - by intros (gs' & H & ->).
  - eauto.
Qed.

Lemma get_gifts_complete soup :
  Forall (row_complete urljoin) (select [ByClass "tm-grid-item"] soup) →
  ∃ gs, get_gifts urljoin soup = inr gs.
Proof.
  intros Hall.
  assert (∃ gs, Forall2 (λ item g, gift_of_item urljoin item = inr g)
                  (select [ByClass "tm-grid-item"] soup) gs) as (gs & Hgs).
  { induction Hall as [|item rest Hitem _ (gs & IH)].
    - by exists [].
    - destruct (gift_of_item_complete item Hitem) as (g & Hg).
      exists (g :: gs). by constructor. }
  exists gs. by apply get_gifts_inr.
Qed.

End get_gifts_facts.

Lemma gift_of_item_id_absent urljoin item :
  id_absent item → gift_of_item urljoin item = inl AttributeError.
Proof. unfold id_absent, gift_of_item. by intros ->. Qed.

Lemma gift_of_item_id_not_numeric urljoin item :
  id_not_numeric item → gift_of_item urljoin item = inl ValueError.
Proof.
  unfold gift_of_item. intros (num & -> & Hint). simpl. by rewrite Hint.
Qed.

Lemma gift_of_item_name_absent urljoin item :
  select_one [ByClass "item-name"] item = None →
  ∃ e, gift_of_item urljoin item = inl e.
Proof.
  unfold gift_of_item. intros ->.
  destruct (select_one [ByClass "item-num"] item) as [num|]; simpl; [|eauto].
  destruct (Py.int _); simpl; eauto.
Qed.

Lemma get_gifts_row_raises urljoin soup i item :
  select [ByClass "tm-grid-item"] soup !! i = Some item →
  (∃ e, gift_of_item urljoin item = inl e) →
  ∃ e, get_gifts urljoin soup = inl e.
Proof.
  intros Hi He. unfold get_gifts.
  eapply get_gifts_loop_raises; [|exact He].
  apply list_elem_of_lookup. eauto.
Qed.

Lemma gift_of_item_invariant urljoin item g :
  gift_of_item urljoin item = inr g →
  gift_invariant g ∧
  (Gift.is_sale g = true ↔
   ∃ raw_price x,
     select_one [ByClass "icon-ton"] item = Some raw_price ∧
     Py.float (Py.replace_empty "," (get_text_strip raw_price)) = inr x ∧
     Gift.price g = Some x).
Proof.
  intros Hg.
  apply gift_of_item_inr in Hg
    as (num & g_id & name_el & st & url & _ & _ & _ & Hst & _ & ->).
  unfold gift_invariant. simpl.
  unfold gift_price in Hst.
  destruct (select_one [ByClass "icon-ton"] item) as [raw_price|].
  - destruct (Py.float _) as [e|x] eqn:Hf; simpl in Hst.
    + apply float_raises in Hf as ->. injection Hst as <-. simpl.
      split; (split; [done|]).
      * by intros [? ?].
      * by intros (? & ? & _ & _ & ?).
    + injection Hst as <-. simpl. split; (split; [|done]).
      * eauto.
      * intros _. by exists raw_price, x.
  - injection Hst as <-. simpl. split; (split; [done|]).
    + by intros [? ?].
    + by intros (? & ? & ? & _).
Qed.

(** The rows of an example page are complete. *)
Ltac rows_complete := repeat constructor; repeat eexists; reflexivity.

(** ** The detail extractor *)

(** The price block never raises: its result is decided by [float] on the
    first string of the element. *)
Lemma ton_block_eq ton_el :
  ton_block ton_el =
  inr match find_string (contents ton_el) with
      | Some ton_raw =>
          match Py.float (Py.replace_empty "," (Py.strip ton_raw)) with
          | inr x => (Some x, true)
          | inl _ => (None, false)
          end
      | None => (None, false)
      end.
Proof.
  unfold ton_block.
  destruct (find_string _) as [ton_raw|]; [|done].
  destruct ton_raw as [|c r]; [done|]. simpl nonempty. cbv iota.
  destruct (Py.float _) as [e|x] eqn:Hf; [|done].
  apply float_raises in Hf as ->. done.
Qed.

Lemma usd_block_eq usd_el :
  usd_block usd_el =
  inr match Py.float (Py.replace_empty "~" (Py.replace_empty ","
               (Py.replace_empty "$" (get_text_strip usd_el)))) with
      | inr x => Some x
      | inl _ => None
      end.
Proof.
  unfold usd_block.
  destruct (Py.float _) as [e|x] eqn:Hf; [|done].
  apply float_raises in Hf as ->. done.
Qed.

Lemma sale_prices_total soup :
  ∃ usd, sale_prices soup = inr (ton_state_of (primary_price_text soup), usd).
Proof.
  unfold sale_prices, primary_price_text.
  destruct (select_one _ soup) as [price_box|]; [|by eexists].
  destruct (select_one [ByClass "tm-value"] price_box) as [ton_el|];
    destruct (select_one [ByClass "tm-usd-value"] price_box) as [usd_el|];
    rewrite ?ton_block_eq, ?usd_block_eq; simpl; by eexists.
Qed.

(** [get_gift_info] always returns, and this is the record it returns. *)
Lemma get_gift_info_total soup gift_id type_gift :
  ∃ usd,
    get_gift_info soup gift_id type_gift =
    inr (GiftInfo.Build gift_id type_gift
           (or_unknown (get_text_strip
              (default empty_soup (info_table_of soup !! "owner"))))
           (clean_val (info_table_of soup) "model")
           (clean_val (info_table_of soup) "backdrop")
           (clean_val (info_table_of soup) "symbol")
           (issued_list_of (info_table_of soup))
           (ton_state_of (primary_price_text soup)).1
           usd
           (ton_state_of (primary_price_text soup)).2
           (history_of soup)).
Proof.
  unfold get_gift_info.
  destruct (sale_prices_total soup) as (usd & ->). simpl. by exists usd.
Qed.

Lemma ton_state_invariant raw :
  (ton_state_of raw).2 = true ↔ is_Some (ton_state_of raw).1.
Proof.
  unfold ton_state_of. destruct raw as [r|]; [destruct (Py.float _)|];
    simpl; split; try done; try (by intros [? ?]); eauto.
Qed.


Lemma clean_val_cleaned info_table key :
  cleaned info_table key (clean_val info_table key).
Proof.
  unfold cleaned, clean_val.
  destruct (info_table !! key) as [cell|]; [|done]. simpl. split.
  - by intros ->.
  - intros a b Htext Hb. rewrite Htext.
    rewrite contains_app. simpl Py.contains at 2.
    rewrite orb_true_r. change (" " +:+ b) with (String " " b).
    by rewrite rsplit1_last_sep.
Qed.

(** The table of attributes holds, for a key, the value cell of the last row
    of that key. *)
Lemma info_table_fold_lookup key rows (m : gmap string element) :
  foldl info_table_row m rows !! key =
  match last (cells_of_key key rows) with
  | Some v => Some v
  | None => m !! key
  end.
Proof.
  revert m. induction rows as [|row rows IH]; intros m; [done|].
  simpl. rewrite IH. unfold cells_of_key at 2. simpl.
  fold (cells_of_key key rows).
  unfold info_table_row, row_entry.
  destruct (select [ByType "td"] row) as [|kc [|vc cells]];
    try done.
  case_bool_decide as Hk.
  - rewrite last_cons. subst key. rewrite lookup_insert_eq.
    by destruct (last _).
  - rewrite lookup_insert_ne by done. done.
Qed.

Lemma info_table_of_lookup soup key :
  info_table_of soup !! key =
  last (cells_of_key key
          (select [ByClass "tm-table-fixed"; ByType "tr"] soup)).
Proof.
  unfold info_table_of. rewrite info_table_fold_lookup.
  rewrite lookup_empty. by destruct (last _).
Qed.

(** The loop with [history.append] keeps what it has and adds the entries of
    the rows in their order. *)
Lemma history_fold rows (history : list OwnershipHistory.t) :
  foldl history_row history rows = history ++ omap history_entry rows.
Proof.
  revert history. induction rows as [|row rows IH]; intros history; simpl.
  - by rewrite app_nil_r.
  - rewrite IH. unfold history_row, history_entry.
    destruct (select [ByType "td"] row) as [|c0 [|c1 [|c2 cells]]];
      try done.
    by rewrite <- app_assoc.
Qed.

Lemma history_entry_short row :
  (length (select [ByType "td"] row) < 3)%nat → history_entry row = None.
Proof.
  unfold history_entry.
  destruct (select [ByType "td"] row) as [|c0 [|c1 [|c2 cells]]];
    simpl; [done..|lia].
Qed.

Lemma history_entry_cells row :
  (3 ≤ length (select [ByType "td"] row))%nat →
  ∃ c0 c1 c2 cells,
    select [ByType "td"] row = c0 :: c1 :: c2 :: cells ∧
    history_entry row =
    Some (OwnershipHistory.Build (get_text_strip c0) (get_text_strip c1)
            (get_text_strip c2)).
Proof.
  unfold history_entry.
  destruct (select [ByType "td"] row) as [|c0 [|c1 [|c2 cells]]];
    simpl; [lia..|]. intros _. by exists c0, c1, c2, cells.
Qed.

(** Opening a goal [∃ info, get_gift_info ... = inr info ∧ ...] with the
    record that [get_gift_info] returns. *)
Ltac gift_info_record soup gift_id type_gift :=
  destruct (get_gift_info_total soup gift_id type_gift) as (? & ->);
  eexists; split; [done|]; simpl.

(** ** The claims of the specification *)

(** C1, as the code has it: a listing row whose id cell is absent or whose id
    text is not a number is not dropped. Reading the row raises
    ([AttributeError] for the absent cell, [ValueError] for the text), and
    [get_gifts] raises for the whole page and returns no [Gift] at all. *)
Theorem C1_unreadable_id_aborts_page urljoin soup i item :
  select [ByClass "tm-grid-item"] soup !! i = Some item →
  id_absent item ∨ id_not_numeric item →
  (id_absent item → gift_of_item urljoin item = inl AttributeError) ∧
  (id_not_numeric item → gift_of_item urljoin item = inl ValueError) ∧
  (∃ e, get_gifts urljoin soup = inl e) ∧
  (∀ gs, get_gifts urljoin soup ≠ inr gs).
Proof.
  intros Hi Hbad.
  assert (∃ e, get_gifts urljoin soup = inl e) as (e & He).
  { apply (get_gifts_row_raises urljoin soup i item Hi).
    destruct Hbad as [H|H].
    - exists AttributeError. by apply gift_of_item_id_absent.
    - exists ValueError. by apply gift_of_item_id_not_numeric. }
  split_and!.
  - apply gift_of_item_id_absent.
  - apply gift_of_item_id_not_numeric.
  - eauto.
  - intros gs. rewrite He. discriminate.
Qed.

Lemma C1_witness :
  (∃ e, get_gifts urljoin_path (page [row_pepe; row_no_id]) = inl e) ∧
  (∃ e, get_gifts urljoin_path (page [row_bad_id; row_pepe]) = inl e).
Proof.
  split.
  - apply (C1_unreadable_id_aborts_page urljoin_path
             (page [row_pepe; row_no_id]) 1 row_no_id).
    + reflexivity.
    + left. reflexivity.
  - apply (C1_unreadable_id_aborts_page urljoin_path
             (page [row_bad_id; row_pepe]) 0 row_bad_id).
    + reflexivity.
    + right. eexists. split; reflexivity.
Defined.

(** The claim C1 as the specification has it fails: the page has one row
    without id cell and one good row; the good row alone would give
    [[gift_pepe]], and the code raises [AttributeError] instead. *)
Lemma C1_counterexample :
  id_absent row_no_id ∧
  gift_of_item urljoin_path row_pepe = inr gift_pepe ∧
  get_gifts urljoin_path (page [row_no_id; row_pepe]) = inl AttributeError ∧
  get_gifts urljoin_path (page [row_no_id; row_pepe]) ≠ inr [gift_pepe].
Proof. split_and!; [reflexivity..|discriminate]. Qed.

(** C2, as the code has it: on a page whose rows all have an id cell that
    parses, a name cell and a link that joins, [get_gifts] returns one [Gift]
    per row in the order of the rows, and a row without price cell gets
    [price = None] and [is_sale = False]. A row without name cell has no
    default name: [get_gifts] raises for the whole page. *)
Theorem C2_price_defaults_name_does_not urljoin soup :
  (Forall (row_complete urljoin) (select [ByClass "tm-grid-item"] soup) →
   ∃ gs, get_gifts urljoin soup = inr gs ∧
     Forall2 (λ item g,
         gift_of_item urljoin item = inr g ∧
         (select_one [ByClass "icon-ton"] item = None →
          Gift.price g = None ∧ Gift.is_sale g = false))
       (select [ByClass "tm-grid-item"] soup) gs) ∧
  (∀ i item,
     select [ByClass "tm-grid-item"] soup !! i = Some item →
     select_one [ByClass "item-name"] item = None →
     ∃ e, get_gifts urljoin soup = inl e).
Proof.
  split.
  - intros Hall.
    destruct (get_gifts_complete urljoin soup Hall) as (gs & Hgs).
    exists gs. split; [done|].
    apply get_gifts_inr in Hgs.
    eapply Forall2_impl; [exact Hgs|]. simpl.
    intros item g Hg. split; [done|]. intros Hnone.
    apply gift_of_item_inr in Hg
      as (num & g_id & name_el & st & url & _ & _ & _ & Hst & _ & ->).
    rewrite (gift_price_absent item Hnone) in Hst.
    by injection Hst as <-.
  - intros i item Hi Hname.
    apply (get_gifts_row_raises urljoin soup i item Hi).
    by apply gift_of_item_name_absent.
Qed.

Lemma C2_witness :
  (∃ gs, get_gifts urljoin_path (page [row_pepe; row_no_price]) = inr gs ∧
     Forall2 (λ item g,
         gift_of_item urljoin_path item = inr g ∧
         (select_one [ByClass "icon-ton"] item = None →
          Gift.price g = None ∧ Gift.is_sale g = false))
       (select [ByClass "tm-grid-item"] (page [row_pepe; row_no_price])) gs) ∧
  (∃ e, get_gifts urljoin_path (page [row_pepe; row_no_name]) = inl e).
Proof.
  split.
  - apply (proj1 (C2_price_defaults_name_does_not urljoin_path
                    (page [row_pepe; row_no_price]))).
    rows_complete.
  - apply (proj2 (C2_price_defaults_name_does_not urljoin_path
                    (page [row_pepe; row_no_name])) 1%nat row_no_name);
      reflexivity.
Defined.

(** The claim C2 as the specification has it fails for the name cell: the
    second row has an id cell and no name cell, and the code raises
    [AttributeError] where the claim has a [Gift] for each of the two rows. *)
Lemma C2_counterexample :
  select_one [ByClass "item-name"] row_no_name = None ∧
  select_one [ByClass "item-num"] row_no_name
    = Some (div "item-num" "#79") ∧
  get_gifts urljoin_path (page [row_pepe; row_no_name]) = inl AttributeError ∧
  ∀ gs, get_gifts urljoin_path (page [row_pepe; row_no_name]) ≠ inr gs.
Proof. split_and!; [reflexivity..|discriminate]. Qed.

(** C3: every [Gift] that [get_gifts] returns has [is_sale] true exactly
    when its [price] is present, which is exactly when the row has a price
    cell whose text [float] accepted; the [GiftInfo] that [get_gift_info]
    returns has [is_sale] true exactly when [ton_price] is present; and
    [usd_price] is tied to neither: there is a page with [usd_price] present
    and [ton_price] absent, and one the other way round. *)
Theorem C3_is_sale_iff_price_present :
  (∀ urljoin soup gs,
     get_gifts urljoin soup = inr gs →
     Forall2 (λ item g,
         gift_invariant g ∧
         (Gift.is_sale g = true ↔
          ∃ raw_price x,
            select_one [ByClass "icon-ton"] item = Some raw_price ∧
            Py.float (Py.replace_empty "," (get_text_strip raw_price))
              = inr x ∧
            Gift.price g = Some x))
       (select [ByClass "tm-grid-item"] soup) gs) ∧
  (∀ soup gift_id type_gift,
     ∃ info, get_gift_info soup gift_id type_gift = inr info ∧
             gift_info_invariant info) ∧
  (∃ soup info,
     get_gift_info soup 0 "" = inr info ∧
     is_Some (GiftInfo.usd_price info) ∧ GiftInfo.ton_price info = None ∧
     GiftInfo.is_sale info = false) ∧
  (∃ soup info,
     get_gift_info soup 0 "" = inr info ∧
     GiftInfo.usd_price info = None ∧ is_Some (GiftInfo.ton_price info) ∧
     GiftInfo.is_sale info = true).
Proof.
  split_and!.
  - intros urljoin soup gs Hgs. apply get_gifts_inr in Hgs.
    eapply Forall2_impl; [exact Hgs|]. simpl.
    intros item g. apply gift_of_item_invariant.
  - intros soup gift_id type_gift.
    destruct (get_gift_info_total soup gift_id type_gift) as (usd & ->).
    eexists. split; [done|].
    unfold gift_info_invariant. simpl. apply ton_state_invariant.
  - exists detail_usd_only. eexists. split; [reflexivity|]. simpl. eauto.
  - exists detail_ton_only. eexists. split; [reflexivity|]. simpl. eauto.
Qed.

Lemma C3_witness :
  Forall2 (λ item g,
      gift_invariant g ∧
      (Gift.is_sale g = true ↔
       ∃ raw_price x,
         select_one [ByClass "icon-ton"] item = Some raw_price ∧
         Py.float (Py.replace_empty "," (get_text_strip raw_price)) = inr x ∧
         Gift.price g = Some x))
    (select [ByClass "tm-grid-item"] (page [row_pepe; row_sold]))
    [gift_pepe;
     Gift.Build 81 "Plush Pepe" "plushpepe" None
       "https://fragment.com/gift/plushpepe-81" false].
Proof.
  apply (proj1 C3_is_sale_iff_price_present urljoin_path
           (page [row_pepe; row_sold])).
  reflexivity.
Defined.

(** C4: for a row with a price cell, a text that is a comma-grouped number
    gives [price] that number, commas taken out, and [is_sale = True] (the
    number as binary64 has it, which for a whole number below [2^53] is the
    number itself); a text that [float] refuses gives [price = None] and
    [is_sale = False]; reading the price never raises, so that a row with its
    id, name and link in order gives its [Gift] with that price, and a page
    of such rows gives all its gifts, whatever the price cells hold. *)
Theorem C4_price_cell_parsed_or_absent :
  (∀ item raw_price,
     select_one [ByClass "icon-ton"] item = Some raw_price →
     (comma_grouped (get_text_strip raw_price) = true →
      gift_price item =
      inr (Some (grouped_number (get_text_strip raw_price)), true)) ∧
     (Py.float (Py.replace_empty "," (get_text_strip raw_price))
        = inl ValueError →
      gift_price item = inr (None, false)) ∧
     (∃ st, gift_price item = inr st)) ∧
  (∀ text,
     grouped_exponent text = 0 → 0 ≤ grouped_mantissa text < 2 ^ 53 →
     grouped_number text = Py.Finite false (Qmake (grouped_mantissa text) 1)) ∧
  (∀ urljoin item,
     row_complete urljoin item →
     ∃ g, gift_of_item urljoin item = inr g ∧
          gift_price item = inr (Gift.price g, Gift.is_sale g)) ∧
  (∀ urljoin soup,
     Forall (row_complete urljoin) (select [ByClass "tm-grid-item"] soup) →
     ∃ gs, get_gifts urljoin soup = inr gs ∧
           Forall2 (λ item g,
               gift_price item = inr (Gift.price g, Gift.is_sale g))
             (select [ByClass "tm-grid-item"] soup) gs).
Proof.
  assert (∀ urljoin item g,
            gift_of_item urljoin item = inr g →
            gift_price item = inr (Gift.price g, Gift.is_sale g)) as Hfields.
  { intros urljoin item g Hg.
    apply gift_of_item_inr in Hg
      as (num & g_id & name_el & st & url & _ & _ & _ & Hst & _ & ->).
    simpl. by destruct st. }
  split_and!.
  - intros item raw_price Hcell.
    rewrite (gift_price_cell item raw_price Hcell). split_and!.
    + intros Hgrouped. by rewrite (float_comma_grouped _ Hgrouped).
    + by intros ->.
    + by eexists.
  - apply grouped_number_exact.
  - intros urljoin item Hrow.
    destruct (gift_of_item_complete urljoin item Hrow) as (g & Hg).
    exists g. split; [done|]. by apply (Hfields urljoin).
  - intros urljoin soup Hall.
    destruct (get_gifts_complete urljoin soup Hall) as (gs & Hgs).
    exists gs. split; [done|]. apply get_gifts_inr in Hgs.
    eapply Forall2_impl; [exact Hgs|]. apply Hfields.
Qed.

(** On the examples: the cell ["1,500"] gives the price 1500, and the cell
    ["Sold"] gives no price. *)
Lemma C4_witness :
  gift_price row_pepe = inr (Some (Py.Finite false 1500), true) ∧
  gift_price row_sold = inr (None, false) ∧
  (∃ gs, get_gifts urljoin_path (page [row_pepe; row_sold]) = inr gs ∧
         Forall2 (λ item g,
             gift_price item = inr (Gift.price g, Gift.is_sale g))
           (select [ByClass "tm-grid-item"] (page [row_pepe; row_sold])) gs).
Proof.
  split_and!.
  - apply (proj1 C4_price_cell_parsed_or_absent row_pepe
             (div "icon-ton" "1,500")); reflexivity.
  - apply (proj1 C4_price_cell_parsed_or_absent row_sold
             (div "icon-ton" "Sold")); reflexivity.
  - apply (proj2 (proj2 (proj2 C4_price_cell_parsed_or_absent)) urljoin_path
             (page [row_pepe; row_sold])).
    rows_complete.
Defined.



(** C6: [model], [backdrop] and [symbol] are ["Unknown"] when the key is not
    in the table of attributes; otherwise, with the text of the cell as
    [get_text(strip=True)] gives it, they are the text before its last space
    when it has a space (["Vintage 3%"] gives ["Vintage"]) and all of the
    text when it has none (["Rare"] gives ["Rare"]). *)
Theorem C6_model_backdrop_symbol_cleaned soup gift_id type_gift :
  ∃ info,
    get_gift_info soup gift_id type_gift = inr info ∧
    cleaned (info_table_of soup) "model" (GiftInfo.model info) ∧
    cleaned (info_table_of soup) "backdrop" (GiftInfo.backdrop info) ∧
    cleaned (info_table_of soup) "symbol" (GiftInfo.symbol info) ∧
    (∀ key value cell,
       cleaned (info_table_of soup) key value →
       info_table_of soup !! key = Some cell →
       (get_text_strip cell = "Vintage 3%" → value = "Vintage") ∧
       (get_text_strip cell = "Rare" → value = "Rare")) ∧
    (∀ text, Py.contains " " text = true →
             ∃ a b, text = a +:+ " " +:+ b ∧ Py.contains " " b = false).
Proof.
  gift_info_record soup gift_id type_gift.
  split_and!; try apply clean_val_cleaned.
  - intros key value cell Hc Hcell. unfold cleaned in Hc.
    rewrite Hcell in Hc. simpl in Hc. destruct Hc as [Hnone Hsome]. split.
    + intros Htext. apply (Hsome "Vintage" "3%"); [|done]. by rewrite Htext.
    + intros Htext. rewrite Hnone; [done|]. by rewrite Htext.
  - apply last_space_exists.
Qed.

Lemma C6_witness :
  ∃ info,
    get_gift_info detail_pepe 7 "plushpepe" = inr info ∧
    GiftInfo.model info = "Vintage" ∧ GiftInfo.backdrop info = "Rare".
Proof.
  destruct (C6_model_backdrop_symbol_cleaned detail_pepe 7 "plushpepe")
    as (info & Hinfo & Hmodel & Hbackdrop & _ & Hex & _).
  exists info. split; [exact Hinfo|]. split.
  - apply (Hex "model" _ (td "Vintage 3%") Hmodel); reflexivity.
  - apply (Hex "backdrop" _ (td "Rare") Hbackdrop); reflexivity.
Defined.

(** C7: without the key ["issued"] the list is empty; with it, the text of
    the cell splits on runs of whitespace in exactly one way, and [issued]
    holds the tokens of even index, in their order and nothing else:
    ["1,234 of 10,000"] gives [["1,234"; "10,000"]]. *)
Theorem C7_issued_even_tokens soup gift_id type_gift :
  ∃ info,
    get_gift_info soup gift_id type_gift = inr info ∧
    (info_table_of soup !! "issued" = None → GiftInfo.issued info = []) ∧
    (∀ cell, info_table_of soup !! "issued" = Some cell →
       ∃ tokens,
         ws_tokens (get_text_strip cell) tokens ∧
         (∀ tokens', ws_tokens (get_text_strip cell) tokens' →
                     tokens' = tokens) ∧
         (∀ i : nat, GiftInfo.issued info !! i = tokens !! (2 * i)%nat) ∧
         (get_text_strip cell = "1,234 of 10,000" →
          GiftInfo.issued info = ["1,234"; "10,000"])).
Proof.
  gift_info_record soup gift_id type_gift. unfold issued_list_of. split.
  - by intros ->.
  - intros cell ->. exists (Py.split_ws (get_text_strip cell)). split_and!.
    + by apply ws_tokens_split_ws.
    + intros tokens'. apply ws_tokens_split_ws.
    + apply slice_even_lookup.
    + by intros ->.
Qed.

Lemma C7_witness :
  ∃ info,
    get_gift_info detail_pepe 7 "plushpepe" = inr info ∧
    GiftInfo.issued info = ["1,234"; "10,000"].
Proof.
  destruct (C7_issued_even_tokens detail_pepe 7 "plushpepe")
    as (info & Hinfo & _ & Hissued).
  exists info. split; [exact Hinfo|].
  destruct (Hissued (td "1,234 of 10,000")) as (tokens & _ & _ & _ & Hex);
    [reflexivity|].
  apply Hex. reflexivity.
Defined.

(** C8: the type of a row is the segment of its link after the last ['/'],
    cut before its first ['-']; every link has exactly one such text; a link
    that ends in [/plushpepe-1234] has the type [plushpepe]; and this is the
    [type] of every [Gift] that [get_gifts] returns. *)
Theorem C8_type_from_link_path :
  (∀ href seg a,
     after_last "/" href seg → up_to_first "-" seg a → g_type_of href = a) ∧
  (∀ href, ∃ seg a, after_last "/" href seg ∧ up_to_first "-" seg a) ∧
  (∀ p, g_type_of (p +:+ "/plushpepe-1234") = "plushpepe") ∧
  (∀ urljoin soup gs,
     get_gifts urljoin soup = inr gs →
     Forall2 (λ item g, Gift.type g = g_type_of (get item "href" ""))
       (select [ByClass "tm-grid-item"] soup) gs).
Proof.
  assert (∀ href seg a,
            after_last "/" href seg → up_to_first "-" seg a →
            g_type_of href = a) as Hcut.
  { intros href seg a Hseg Ha. unfold g_type_of.
    rewrite (after_last_split _ _ _ Hseg). by apply up_to_first_split. }
  split_and!.
  - exact Hcut.
  - intros href.
    destruct (after_last_exists "/" href) as (seg & Hseg).
    destruct (up_to_first_exists "-" seg) as (a & Ha).
    by exists seg, a.
  - intros p. apply (Hcut _ "plushpepe-1234").
    + split; [done|]. right. by exists p.
    + split; [done|]. right. by exists "1234".
  - intros urljoin soup gs Hgs. apply get_gifts_inr in Hgs.
    eapply Forall2_impl; [exact Hgs|]. simpl. intros item g Hg.
    apply gift_of_item_inr in Hg
      as (num & g_id & name_el & st & url & _ & _ & _ & _ & _ & ->).
    done.
Qed.

Lemma C8_witness :
  g_type_of "/gift/plushpepe-1234" = "plushpepe" ∧
  Forall2 (λ item g, Gift.type g = g_type_of (get item "href" ""))
    (select [ByClass "tm-grid-item"] (page [row_pepe])) [gift_pepe].
Proof.
  split.
  - apply (proj1 C8_type_from_link_path "/gift/plushpepe-1234"
             "plushpepe-1234" "plushpepe").
    + split; [reflexivity|]. right. by exists "/gift".
    + split; [reflexivity|]. right. by exists "1234".
  - apply (proj2 (proj2 (proj2 C8_type_from_link_path)) urljoin_path
             (page [row_pepe])).
    reflexivity.
Defined.

(** C9: [history] is made of the rows of the history table in document
    order: a row with three cells or more gives one entry, whose [price],
    [date] and [buyer] are the stripped texts of its first three cells, the
    price being the text itself; a row with fewer cells gives none; and
    [get_gift_info] returns all the same. *)
Theorem C9_history_rows_in_order soup gift_id type_gift :
  ∃ info,
    get_gift_info soup gift_id type_gift = inr info ∧
    GiftInfo.history info =
      omap history_entry
        (select [ByClass "tm-table-wrap"; ByType "tbody"; ByType "tr"] soup) ∧
    (∀ row, (length (select [ByType "td"] row) < 3)%nat →
            history_entry row = None) ∧
    (∀ row, (3 ≤ length (select [ByType "td"] row))%nat →
       ∃ c0 c1 c2 cells,
         select [ByType "td"] row = c0 :: c1 :: c2 :: cells ∧
         history_entry row =
         Some (OwnershipHistory.Build (get_text_strip c0) (get_text_strip c1)
                 (get_text_strip c2))).
Proof.
  gift_info_record soup gift_id type_gift. split_and!.
  - unfold history_of. by rewrite history_fold.
  - apply history_entry_short.
  - apply history_entry_cells.
Qed.

(** The history of the example page: the two rows of three cells, in their
    order, the row of one cell left out. *)
Lemma C9_witness :
  ∃ info,
    get_gift_info detail_pepe 7 "plushpepe" = inr info ∧
    GiftInfo.history info =
      [OwnershipHistory.Build "10 TON" "2023-01-01" "Alice";
       OwnershipHistory.Build "8 TON" "2022-12-01" "Bob"].
Proof.
  destruct (C9_history_rows_in_order detail_pepe 7 "plushpepe")
    as (info & Hinfo & Hhistory & _).
  exists info. split; [exact Hinfo|]. rewrite Hhistory. reflexivity.
Defined.

(** C10: for [model], [backdrop] and [symbol] the default ["Unknown"] is for
    a key that is not in the table; a key that is there with a cell whose
    text is empty gives the empty string. For [owner] the empty text gives
    ["Unknown"] as the absent key does. *)
Theorem C10_empty_cell_is_not_unknown soup gift_id type_gift :
  ∃ info,
    get_gift_info soup gift_id type_gift = inr info ∧
    (∀ key value,
       (key, value) ∈ [("model", GiftInfo.model info);
                       ("backdrop", GiftInfo.backdrop info);
                       ("symbol", GiftInfo.symbol info)] →
       (info_table_of soup !! key = None → value = "Unknown") ∧
       (∀ cell, info_table_of soup !! key = Some cell →
                get_text_strip cell = "" → value = "")) ∧
    (info_table_of soup !! "owner" = None →
     GiftInfo.owner info = "Unknown") ∧
    (∀ cell, info_table_of soup !! "owner" = Some cell →
             get_text_strip cell = "" → GiftInfo.owner info = "Unknown") ∧
    (∀ cell, info_table_of soup !! "owner" = Some cell →
             get_text_strip cell ≠ "" →
             GiftInfo.owner info = get_text_strip cell).
Proof.
  gift_info_record soup gift_id type_gift. split_and!.
  - intros key value Hin.
    assert (value = clean_val (info_table_of soup) key) as ->.
    { repeat (apply elem_of_cons in Hin as [[= -> ->]|Hin]; [done|]).
      by apply elem_of_nil in Hin. }
    unfold clean_val. split.
    + by intros ->.
    + intros cell -> Htext. simpl. by rewrite Htext.
  - by intros ->.
  - intros cell -> Htext. simpl. by rewrite Htext.
  - intros cell -> Htext. simpl. unfold or_unknown.
    by destruct (get_text_strip cell).
Qed.

Lemma C10_witness :
  ∃ info,
    get_gift_info detail_pepe 7 "plushpepe" = inr info ∧
    GiftInfo.symbol info = "".
Proof.
  destruct (C10_empty_cell_is_not_unknown detail_pepe 7 "plushpepe")
    as (info & Hinfo & Hkeys & _).
  exists info. split; [exact Hinfo|].
  assert ((("symbol", GiftInfo.symbol info) : string * string)
            ∈ [("model", GiftInfo.model info);
               ("backdrop", GiftInfo.backdrop info);
               ("symbol", GiftInfo.symbol info)]) as Hin.
  { do 2 apply list_elem_of_further. apply list_elem_of_here. }
  apply (proj2 (Hkeys "symbol" (GiftInfo.symbol info) Hin) (td " "));
    reflexivity.
Defined.

(** * Further properties of the code *)

(** ** The listing: rows and failures *)

(** The loop raises the exception of the first row that raises. *)
Lemma get_gifts_loop_inl urljoin items res e :
  get_gifts_loop urljoin items res = inl e ↔
  ∃ i item,
    items !! i = Some item ∧ gift_of_item urljoin item = inl e ∧
    ∀ j item', (j < i)%nat → items !! j = Some item' →
               ∃ g, gift_of_item urljoin item' = inr g.
Proof.
  revert res. induction items as [|item rest IH]; intros res; simpl.
  - split; [done|]. by intros (i & item & Hi & _).
  - destruct (gift_of_item urljoin item) as [e'|g] eqn:Hitem; simpl.
    + split.
      * intros [= ->]. exists 0%nat, item. split_and!; [done..|]. lia.
      * intros ([|i] & item' & Hi & He & Hearlier).
        -- simpl in Hi. injection Hi as <-. congruence.
        -- destruct (Hearlier 0%nat item) as (g & Hg); [lia|done|].
           congruence.
    + rewrite IH. split.
      * intros (i & item' & Hi & He & Hearlier).
        exists (S i), item'. split_and!; [done..|].
        intros [|j] item'' Hj Hitem''.
        -- simpl in Hitem''. injection Hitem'' as <-. eauto.
        -- apply (Hearlier j); [lia|done].
      * intros ([|i] & item' & Hi & He & Hearlier).
        -- simpl in Hi. injection Hi as <-. congruence.
        -- exists i, item'. split_and!; [done..|].
           intros j item'' Hj Hitem''. apply (Hearlier (S j)); [lia|done].
Qed.

(** X1: [get_gifts] makes one [Gift] of each grid item and keeps their
    order: when it returns, the list is as long as the page has grid items
    and its i-th entry is the [Gift] of the i-th item; a page without grid
    item gives the empty list. *)
Theorem X1_one_gift_per_row_in_order urljoin soup :
  (select [ByClass "tm-grid-item"] soup = [] →
   get_gifts urljoin soup = inr []) ∧
  (∀ gs,
     get_gifts urljoin soup = inr gs →
     length gs = length (select [ByClass "tm-grid-item"] soup) ∧
     ∀ (i : nat) item,
       select [ByClass "tm-grid-item"] soup !! i = Some item →
       ∃ g, gs !! i = Some g ∧ gift_of_item urljoin item = inr g).
Proof.
  split.
  - unfold get_gifts. by intros ->.
  - intros gs Hgs. apply get_gifts_inr in Hgs. split.
    + symmetry. by eapply Forall2_length.
    + intros i item Hi.
      destruct (Forall2_lookup_l _ _ _ _ _ Hgs Hi) as (g & Hg & Hitem).
      by exists g.
Qed.

Lemma X1_witness :
  get_gifts urljoin_path (page []) = inr [] ∧
  ∃ g, [gift_pepe] !! 0%nat = Some g ∧
       gift_of_item urljoin_path row_pepe = inr g.
Proof.
  split.
  - apply (proj1 (X1_one_gift_per_row_in_order urljoin_path (page []))).
    reflexivity.
  - apply (proj2 (X1_one_gift_per_row_in_order urljoin_path
                    (page [row_pepe])) [gift_pepe] eq_refl);
      reflexivity.
Defined.

(** X2: [get_gifts] raises an exception exactly when some row raises it
    and every row before that one gives its [Gift]: the first row that cannot
    be read decides, and the rows after it are not looked at. *)
Theorem X2_first_failing_row_decides urljoin soup e :
  get_gifts urljoin soup = inl e ↔
  ∃ i item,
    select [ByClass "tm-grid-item"] soup !! i = Some item ∧
    gift_of_item urljoin item = inl e ∧
    ∀ j item', (j < i)%nat →
               select [ByClass "tm-grid-item"] soup !! j = Some item' →
               ∃ g, gift_of_item urljoin item' = inr g.
Proof. unfold get_gifts. apply get_gifts_loop_inl. Qed.

(** A row without name cell comes first and a row with a bad id second:
    the page raises what the first of them raises. *)
Lemma X2_witness :
  get_gifts urljoin_path (page [row_pepe; row_no_name; row_bad_id])
  = inl AttributeError.
Proof.
  apply X2_first_failing_row_decides.
  exists 1%nat, row_no_name. split_and!; [reflexivity..|].
  intros [|j] item' Hj Hitem'; [|lia].
  injection Hitem' as <-. by exists gift_pepe.
Defined.

(** ** The id and the type of a row *)







Lemma string_app_assoc (a b c : string) : (a +:+ b) +:+ c = a +:+ b +:+ c.
Proof.
  induction a as [|x a IH]; [done|]. by rewrite !string_app_cons, IH.
Qed.

Lemma g_type_of_cut href :
  ∃ seg, after_last "/" href seg ∧ up_to_first "-" seg (g_type_of href).
Proof.
  destruct (after_last_exists "/" href) as (seg & Hseg).
  destruct (up_to_first_exists "-" seg) as (a & Ha).
  exists seg. split; [done|]. unfold g_type_of.
  by rewrite (after_last_split _ _ _ Hseg), (up_to_first_split _ _ _ Ha).
Qed.

(** X4: the type of a row is a piece of its link in which neither ['/'] nor
    ['-'] occurs; so is the [type] of every [Gift] that [get_gifts]
    returns. *)
Theorem X4_type_has_no_separator :
  (∀ href,
     Py.contains "/" (g_type_of href) = false ∧
     Py.contains "-" (g_type_of href) = false ∧
     ∃ p q, href = p +:+ g_type_of href +:+ q) ∧
  (∀ urljoin soup gs,
     get_gifts urljoin soup = inr gs →
     Forall (λ g, Py.contains "/" (Gift.type g) = false ∧
                  Py.contains "-" (Gift.type g) = false) gs).
Proof.
  assert (∀ href,
            Py.contains "/" (g_type_of href) = false ∧
            Py.contains "-" (g_type_of href) = false ∧
            ∃ p q, href = p +:+ g_type_of href +:+ q) as Htype.
  { intros href.
    destruct (g_type_of_cut href) as (seg & [Hseg Hhref] & [Ha Hcut]).
    generalize dependent (g_type_of href). intros a Ha Hcut.
    assert (Py.contains "/" a = false ∧ ∃ q, seg = a +:+ q) as [Hslash [q ->]].
    { destruct Hcut as [->|[b ->]].
      - split; [done|]. exists "". by rewrite string_app_nil_r.
      - rewrite contains_app in Hseg.
        apply orb_false_elim in Hseg as [Hseg _]. split; [done|]. eauto. }
    split_and!; [done..|].
    destruct Hhref as [->|[p ->]].
    - by exists "", q.
    - exists (p +:+ "/"), q. by rewrite string_app_assoc. }
  split; [exact Htype|].
  intros urljoin soup gs Hgs. apply get_gifts_inr in Hgs.
  apply Forall_lookup. intros i g Hg.
  destruct (Forall2_lookup_r _ _ _ _ _ Hgs Hg) as (item & _ & Hitem).
  apply gift_of_item_inr in Hitem
    as (num & g_id & name_el & st & url & _ & _ & _ & _ & _ & ->).
  simpl. destruct (Htype (get item "href" "")) as (? & ? & _). done.
Qed.

Lemma X4_witness :
  Forall (λ g, Py.contains "/" (Gift.type g) = false ∧
               Py.contains "-" (Gift.type g) = false) [gift_pepe].
Proof.
  apply (proj2 X4_type_has_no_separator urljoin_path (page [row_pepe])).
  reflexivity.
Defined.

(** ** The table of attributes *)

Lemma lower_char_idem c : Py.lower_char (Py.lower_char c) = Py.lower_char c.
Proof. by destruct c as [[] [] [] [] [] [] [] []]. Qed.

Lemma lower_idem s : Py.lower (Py.lower s) = Py.lower s.
Proof.
  induction s as [|c r IH]; [done|]. simpl. by rewrite lower_char_idem, IH.
Qed.

Lemma row_entry_key_lower row k v :
  row_entry row = Some (k, v) → Py.lower k = k.
Proof.
  unfold row_entry.
  destruct (select [ByType "td"] row) as [|kc [|vc cells]]; try done.
  intros [= <- _]. apply lower_idem.
Qed.

Lemma cells_of_key_nil key rows :
  cells_of_key key rows = [] ↔
  ∀ row k v, row ∈ rows → row_entry row = Some (k, v) → k ≠ key.
Proof.
  unfold cells_of_key. induction rows as [|row rows IH]; simpl.
  - split; [|done]. intros _ row k v Hin. by apply elem_of_nil in Hin.
  - destruct (row_entry row) as [[k v]|] eqn:Hrow.
    + case_bool_decide as Hk.
      * split; [done|]. intros H. destruct (H row k v); [left|done..].
      * rewrite IH. split.
        -- intros H row' k' v' [->|Hin]%elem_of_cons Hrow'.
           ++ congruence.
           ++ by apply (H row' k' v').
        -- intros H row' k' v' Hin. apply H. by right.
    + rewrite IH. split.
      * intros H row' k' v' [->|Hin]%elem_of_cons Hrow'.
        -- congruence.
        -- by apply (H row' k' v').
      * intros H row' k' v' Hin. apply H. by right.
Qed.

(** X5: the table of attributes holds, under a key, the value cell of the
    last row of the fixed table whose first cell has that text in lower case;
    a key is absent exactly when no row has it; and since the keys are put in
    lower case, a lookup with a key that has an upper-case letter finds
    nothing. *)
Theorem X5_info_table_last_row_lower_key soup :
  (∀ key,
     info_table_of soup !! key
     = last (cells_of_key key
               (select [ByClass "tm-table-fixed"; ByType "tr"] soup))) ∧
  (∀ key,
     info_table_of soup !! key = None ↔
     ∀ row k v,
       row ∈ select [ByClass "tm-table-fixed"; ByType "tr"] soup →
       row_entry row = Some (k, v) → k ≠ key) ∧
  (∀ key, Py.lower key ≠ key → info_table_of soup !! key = None).
Proof.
  assert (∀ key,
            info_table_of soup !! key = None ↔
            ∀ row k v,
              row ∈ select [ByClass "tm-table-fixed"; ByType "tr"] soup →
              row_entry row = Some (k, v) → k ≠ key) as Habsent.
  { intros key. rewrite info_table_of_lookup, last_None.
    apply cells_of_key_nil. }
  split_and!.
  - apply info_table_of_lookup.
  - exact Habsent.
  - intros key Hkey. apply Habsent. intros row k v _ Hrow ->.
    by apply row_entry_key_lower in Hrow.
Qed.

Lemma X5_witness :
  info_table_of detail_pepe !! "Model" = None ∧
  info_table_of detail_pepe !! "model" = Some (td "Vintage 3%").
Proof.
  split.
  - apply (proj2 (proj2 (X5_info_table_last_row_lower_key detail_pepe))).
    discriminate.
  - rewrite (proj1 (X5_info_table_last_row_lower_key detail_pepe)).
    reflexivity.
Defined.

(** ** Texts are stripped *)

Lemma lstrip_no_space_first s : no_space_first (Py.lstrip_with Py.isspace s).
Proof.
  induction s as [|c r IH]; [done|]. simpl.
  by destruct (Py.isspace c) eqn:Hc.
Qed.

Lemma lstrip_id s : no_space_first s → Py.lstrip_with Py.isspace s = s.
Proof. destruct s as [|c r]; [done|]. simpl. by intros ->. Qed.

Lemma rstrip_no_space_first s :
  no_space_first s → no_space_first (Py.rstrip_with Py.isspace s).
Proof.
  destruct s as [|c r]; [done|]. simpl. intros Hc. rewrite Hc.
  by destruct (Py.rstrip_with Py.isspace r).
Qed.

Lemma rstrip_idem p s :
  Py.rstrip_with p (Py.rstrip_with p s) = Py.rstrip_with p s.
Proof.
  induction s as [|c r IH]; [done|]. simpl.
  destruct (Py.rstrip_with p r) as [|d r'] eqn:Hr.
  - destruct (p c) eqn:Hc; [done|]. simpl. by rewrite Hc.
  - simpl in *. by rewrite IH.
Qed.

Lemma strip_idem s : Py.strip (Py.strip s) = Py.strip s.
Proof.
  unfold Py.strip. rewrite lstrip_id.
  - apply rstrip_idem.
  - apply rstrip_no_space_first, lstrip_no_space_first.
Qed.

Lemma stripped_inv s :
  Py.strip s = s → no_space_first s ∧ Py.rstrip_with Py.isspace s = s.
Proof.
  intros Hs. split.
  - rewrite <- Hs. apply rstrip_no_space_first, lstrip_no_space_first.
  - rewrite <- Hs at 1. unfold Py.strip. rewrite rstrip_idem. exact Hs.
Qed.

Lemma rstrip_app p a b :
  Py.rstrip_with p b ≠ "" →
  Py.rstrip_with p (a +:+ b) = a +:+ Py.rstrip_with p b.
Proof.
  intros Hb. induction a as [|c a IH]; [done|].
  rewrite !string_app_cons. simpl. rewrite IH.
  destruct a; [|done]. change ("" +:+ Py.rstrip_with p b)
    with (Py.rstrip_with p b).
  by destruct (Py.rstrip_with p b).
Qed.

Lemma strip_app a b :
  Py.strip a = a → Py.strip b = b → a ≠ "" → b ≠ "" →
  Py.strip (a +:+ b) = a +:+ b.
Proof.
  intros [Ha _]%stripped_inv [_ Hb]%stripped_inv Hane Hbne.
  unfold Py.strip. rewrite lstrip_id.
  - rewrite rstrip_app; by rewrite Hb.
  - by destruct a.
Qed.

Lemma join_stripped l :
  Forall (λ x, Py.strip x = x ∧ x ≠ "") l → Py.strip (join l) = join l.
Proof.
  induction 1 as [|x l [Hx Hne] _ IH]; [done|].
  simpl. destruct (join l) as [|c r] eqn:Hl.
  - by rewrite string_app_nil_r.
  - by apply strip_app.
Qed.

Lemma get_text_strip_stripped e :
  Py.strip (get_text_strip e) = get_text_strip e.
Proof.
  unfold get_text_strip. apply join_stripped.
  apply Forall_forall. intros x [Hx Hin]%list_elem_of_filter.
  apply list_elem_of_fmap in Hin as (s & -> & _). split.
  - apply strip_idem.
  - by destruct (Py.strip s).
Qed.

Lemma sale_prices_eq soup :
  sale_prices soup
  = inr (ton_state_of (primary_price_text soup),
         usd_state_of (usd_price_text soup)).
Proof.
  unfold sale_prices, primary_price_text, usd_price_text.
  destruct (select_one _ soup) as [price_box|]; [|done].
  destruct (select_one [ByClass "tm-value"] price_box) as [ton_el|];
    destruct (select_one [ByClass "tm-usd-value"] price_box) as [usd_el|];
    by rewrite ?ton_block_eq, ?usd_block_eq.
Qed.

(** The record that [get_gift_info] returns, field by field. *)
Lemma get_gift_info_eq soup gift_id type_gift :
  get_gift_info soup gift_id type_gift =
  inr (GiftInfo.Build gift_id type_gift
         (or_unknown (get_text_strip
            (default empty_soup (info_table_of soup !! "owner"))))
         (clean_val (info_table_of soup) "model")
         (clean_val (info_table_of soup) "backdrop")
         (clean_val (info_table_of soup) "symbol")
         (issued_list_of (info_table_of soup))
         (ton_state_of (primary_price_text soup)).1
         (usd_state_of (usd_price_text soup))
         (ton_state_of (primary_price_text soup)).2
         (history_of soup)).
Proof. unfold get_gift_info. by rewrite sale_prices_eq. Qed.

(** X6: the text that [get_text(strip=True)] gives has no whitespace at
    either end, so that stripping it again changes nothing; hence the [name]
    of every [Gift], and the [owner] and the three fields of every history
    entry of a [GiftInfo], neither begin nor end with whitespace. *)
Theorem X6_texts_are_stripped :
  (∀ e, Py.strip (get_text_strip e) = get_text_strip e) ∧
  (∀ urljoin soup gs,
     get_gifts urljoin soup = inr gs →
     Forall (λ g, Py.strip (Gift.name g) = Gift.name g) gs) ∧
  (∀ soup gift_id type_gift,
     ∃ info,
       get_gift_info soup gift_id type_gift = inr info ∧
       Py.strip (GiftInfo.owner info) = GiftInfo.owner info ∧
       Forall (λ h,
           Py.strip (OwnershipHistory.price h) = OwnershipHistory.price h ∧
           Py.strip (OwnershipHistory.date h) = OwnershipHistory.date h ∧
           Py.strip (OwnershipHistory.buyer h) = OwnershipHistory.buyer h)
         (GiftInfo.history info)).
Proof.
  split_and!.
  - apply get_text_strip_stripped.
  - intros urljoin soup gs Hgs. apply get_gifts_inr in Hgs.
    apply Forall_lookup. intros i g Hg.
    destruct (Forall2_lookup_r _ _ _ _ _ Hgs Hg) as (item & _ & Hitem).
    apply gift_of_item_inr in Hitem
      as (num & g_id & name_el & st & url & _ & _ & _ & _ & _ & ->).
    simpl. apply strip_idem.
  - intros soup gift_id type_gift. rewrite get_gift_info_eq.
    eexists. split; [done|]. simpl. split.
    + unfold or_unknown.
      destruct (nonempty _); [apply get_text_strip_stripped|done].
    + unfold history_of. rewrite history_fold. simpl.
      apply Forall_forall. intros h (row & _ & Hrow)%list_elem_of_omap.
      unfold history_entry in Hrow.
      destruct (select [ByType "td"] row) as [|c0 [|c1 [|c2 cells]]];
        try done.
      injection Hrow as <-. simpl.
      split_and!; apply get_text_strip_stripped.
Qed.

Lemma X6_witness :
  Forall (λ g, Py.strip (Gift.name g) = Gift.name g) [gift_pepe].
Proof.
  apply (proj1 (proj2 X6_texts_are_stripped) urljoin_path (page [row_pepe])).
  reflexivity.
Defined.

(** ** The tokens of [issued] *)

Lemma ws_tokens_Forall s tokens :
  ws_tokens s tokens →
  Forall (λ t, t ≠ "" ∧ no_space t = true) tokens.
Proof. induction 1; by constructor. Qed.

Lemma slice_even_Forall {A} (P : A → Prop) l :
  Forall P l → Forall P (Py.slice_even l).
Proof.
  rewrite !Forall_lookup. intros Hl i x Hx.
  rewrite slice_even_lookup in Hx. by apply (Hl (2 * i)%nat).
Qed.

Lemma slice_even_length {A} (l : list A) :
  length (Py.slice_even l) = Nat.div2 (S (length l)).
Proof.
  assert (∀ l : list A,
            length (Py.slice_even l) = Nat.div2 (S (length l)) ∧
            ∀ x, length (Py.slice_even (x :: l))
                 = Nat.div2 (S (length (x :: l)))) as H; [|apply H].
  clear. induction l as [|y l [IH1 IH2]].
  - by split.
  - split; [apply IH2|]. intros x. simpl in *. by rewrite IH1.
Qed.

(** X7: the entries of [issued] are never empty and hold no whitespace;
    with the key ["issued"] there is one entry for every two tokens of the
    text of the cell, rounded up, so that a cell whose text is empty or all
    whitespace gives the empty list. *)
Theorem X7_issued_entries soup gift_id type_gift :
  ∃ info,
    get_gift_info soup gift_id type_gift = inr info ∧
    Forall (λ t, t ≠ "" ∧ no_space t = true) (GiftInfo.issued info) ∧
    (∀ cell, info_table_of soup !! "issued" = Some cell →
       length (GiftInfo.issued info)
       = Nat.div2 (S (length (Py.split_ws (get_text_strip cell)))) ∧
       (all_space (get_text_strip cell) = true →
        GiftInfo.issued info = [])).
Proof.
  rewrite get_gift_info_eq. eexists. split; [done|]. simpl.
  unfold issued_list_of. split.
  - destruct (info_table_of soup !! "issued") as [cell|]; [|done].
    apply slice_even_Forall.
    apply (ws_tokens_Forall (get_text_strip cell)).
    by apply ws_tokens_split_ws.
  - intros cell ->. split.
    + apply slice_even_length.
    + intros Hspace. by rewrite split_ws_all_space.
Qed.

Lemma X7_witness :
  ∃ info,
    get_gift_info detail_pepe 7 "plushpepe" = inr info ∧
    length (GiftInfo.issued info) = 2%nat.
Proof.
  destruct (X7_issued_entries detail_pepe 7 "plushpepe")
    as (info & Hinfo & _ & Hcell).
  exists info. split; [exact Hinfo|].
  destruct (Hcell (td "1,234 of 10,000")) as [Hlen _]; [reflexivity|].
  exact Hlen.
Defined.

(** ** The secondary price *)

Lemma replace_empty_absent c s :
  Py.contains c s = false → Py.replace_empty c s = s.
Proof.
  induction s as [|d r IH]; [done|].
  intros [Hd Hr]%contains_cons_false. simpl.
  by rewrite bool_decide_eq_false_2, IH.
Qed.

Lemma all_chars_not_contains (p : ascii → bool) c s :
  p c = false → all_chars p s = true → Py.contains c s = false.
Proof.
  intros Hc. induction s as [|d r IH]; [done|]. simpl.
  intros [Hd Hr]%andb_prop. rewrite (IH Hr), orb_false_r.
  apply bool_decide_eq_false. intros ->. congruence.
Qed.

Lemma all_chars_replace (p : ascii → bool) c s :
  all_chars p s = true → all_chars p (Py.replace_empty c s) = true.
Proof.
  induction s as [|d r IH]; [done|]. simpl.
  intros [Hd Hr]%andb_prop. case_bool_decide; [by apply IH|].
  simpl. by rewrite Hd, IH.
Qed.

(** A comma-grouped number is made of digits, commas and at most a point. *)
Lemma comma_grouped_chars t :
  comma_grouped t = true →
  all_chars (λ c, numeral_char c || bool_decide (c = ","%char)) t = true.
Proof.
  assert (∀ ip, comma_grouped_int ip = true →
            all_chars (λ c, numeral_char c || bool_decide (c = ","%char)) ip
            = true) as Hint.
  { intros ip [Hchars _]%comma_grouped_int_chars. revert Hchars.
    apply all_chars_impl. intros c. unfold numeral_char.
    destruct (Py.isdigit c); [done|]. simpl. intros ->. apply orb_true_r. }
  unfold comma_grouped.
  destruct (Py.split "." t) as [|ip [|fp [|]]] eqn:Hsplit; try done.
  - apply split_singleton in Hsplit as [-> _]. apply Hint.
  - apply split_pair in Hsplit as (-> & _ & _).
    rewrite !andb_true_iff. intros [[Hip Hfp] _].
    rewrite all_chars_app, (Hint _ Hip). simpl.
    revert Hfp. apply all_chars_impl. intros c Hc.
    unfold numeral_char. by rewrite Hc.
Qed.

Lemma usd_symbols_cleared pre :
  all_chars usd_symbol pre = true →
  Py.replace_empty "~" (Py.replace_empty "," (Py.replace_empty "$" pre)) = "".
Proof.
  induction pre as [|c pre IH]; [done|]. simpl all_chars.
  intros [Hc Hpre]%andb_prop. unfold usd_symbol in Hc.
  apply orb_prop in Hc as [[Hc|Hc]%orb_prop|Hc];
    apply bool_decide_eq_true in Hc as ->; simpl; by apply IH.
Qed.

Lemma usd_grouped_cleared t :
  comma_grouped t = true →
  Py.replace_empty "~" (Py.replace_empty "," (Py.replace_empty "$" t))
  = Py.replace_empty "," t.
Proof.
  intros Ht%comma_grouped_chars.
  rewrite (replace_empty_absent "$" t).
  - apply replace_empty_absent.
    eapply all_chars_not_contains; [|exact (all_chars_replace _ "," _ Ht)].
    reflexivity.
  - eapply all_chars_not_contains; [|exact Ht]. reflexivity.
Qed.

(** X8: [usd_price] is read from the text of the [.tm-usd-value] element of
    the price block with every ['$'], [','] and ['~'] taken out: a text made
    of such characters followed by a comma-grouped number gives that number
    (["~$45.20"] gives 45.2); without the block or the element it is [None];
    and it has no part in [ton_price] and [is_sale]. *)
Theorem X8_usd_price_cleared_of_symbols soup gift_id type_gift :
  ∃ info,
    get_gift_info soup gift_id type_gift = inr info ∧
    (∀ pre t,
       usd_price_text soup = Some (pre +:+ t) →
       all_chars usd_symbol pre = true → comma_grouped t = true →
       GiftInfo.usd_price info = Some (grouped_number t)) ∧
    (∀ usd_raw,
       usd_price_text soup = Some usd_raw →
       Py.float (Py.replace_empty "~" (Py.replace_empty ","
                   (Py.replace_empty "$" usd_raw))) = inl ValueError →
       GiftInfo.usd_price info = None) ∧
    (usd_price_text soup = None → GiftInfo.usd_price info = None) ∧
    (GiftInfo.ton_price info, GiftInfo.is_sale info)
      = ton_state_of (primary_price_text soup).
Proof.
  rewrite get_gift_info_eq. eexists. split; [done|]. simpl. split_and!.
  - intros pre t -> Hpre Ht. simpl.
    rewrite !replace_empty_app.
    rewrite (usd_symbols_cleared _ Hpre), (usd_grouped_cleared _ Ht).
    change ("" +:+ Py.replace_empty "," t) with (Py.replace_empty "," t).
    by rewrite (float_comma_grouped _ Ht).
  - intros usd_raw -> Hf. simpl. by rewrite Hf.
  - by intros ->.
  - by destruct (ton_state_of _).
Qed.

Lemma X8_witness :
  ∃ info,
    get_gift_info detail_pepe 7 "plushpepe" = inr info ∧
    GiftInfo.usd_price info
    = Some (Py.Finite false (Qmake 3180667236830413 70368744177664)).
Proof.
  destruct (X8_usd_price_cleared_of_symbols detail_pepe 7 "plushpepe")
    as (info & Hinfo & Hgrouped & _).
  exists info. split; [exact Hinfo|].
  apply (Hgrouped "~$" "45.20"); reflexivity.
Defined.

(** ** The session of the client *)

Lemma run_invariant (P : gmap nat bool * FragmentClient.t → Prop) calls st :
  (∀ st c, P st → P (FragmentClient.step st c)) →
  P st → P (FragmentClient.run calls st).
Proof.
  intros Hstep. revert st.
  induction calls as [|c calls IH]; intros st Hst; [done|].
  simpl. apply IH. by apply Hstep.
Qed.

(** X9: a client that was given a session never closes it and never
    replaces it: entered and left any number of times, in any order, it
    leaves the sessions and itself as they were. *)
Theorem X9_given_session_never_closed w s calls :
  FragmentClient.run calls (w, FragmentClient.__init__ (Some s))
  = (w, FragmentClient.__init__ (Some s)).
Proof.
  apply (run_invariant (λ st, st = (w, FragmentClient.__init__ (Some s))));
    [|done].
  intros st c ->. by destruct c.
Qed.

(** X10: a client that was given no session makes one when it is entered:
    a new session, open, that it owns; whatever happened to the sessions
    meanwhile, leaving the client closes that session and no other. *)
Theorem X10_own_session_made_and_closed w :
  ∃ s,
    w !! s = None ∧
    FragmentClient.__aenter__ w (FragmentClient.__init__ None)
    = (<[s := false]> w, FragmentClient.Build (Some s) true) ∧
    ∀ w2,
      (FragmentClient.__aexit__ w2 (FragmentClient.Build (Some s) true)).2
      = FragmentClient.Build (Some s) true ∧
      (FragmentClient.__aexit__ w2 (FragmentClient.Build (Some s) true)).1
        !! s = Some true ∧
      ∀ s', s' ≠ s →
        (FragmentClient.__aexit__ w2 (FragmentClient.Build (Some s) true)).1
          !! s' = w2 !! s'.
Proof.
  exists (fresh (dom w)). split_and!.
  - apply not_elem_of_dom, is_fresh.
  - done.
  - intros w2. simpl. unfold FragmentClient.close. split_and!.
    + done.
    + apply lookup_insert_eq.
    + intros s' Hs'. by apply lookup_insert_ne.
Qed.

(** X11: a client that was given no session makes one session at most, and
    a session it has closed stays closed: entered and left in any order, the
    client is as it was made, or holds the one session open, or holds it
    closed; and once it has been entered and left, nothing changes any
    more, entering it again makes no new session. *)
Theorem X11_one_session_closed_for_good w :
  let s := fresh (dom w) in
  let made := (w, FragmentClient.__init__ None) in
  let opened := (<[s := false]> w, FragmentClient.Build (Some s) true) in
  let closed := (<[s := true]> w, FragmentClient.Build (Some s) true) in
  (∀ calls,
     FragmentClient.run calls made = made ∨
     FragmentClient.run calls made = opened ∨
     FragmentClient.run calls made = closed) ∧
  (∀ calls,
     FragmentClient.run
       (FragmentClient.Enter :: FragmentClient.Exit :: calls) made
     = closed).
Proof.
  intros s made opened closed.
  assert (∀ c, FragmentClient.step closed c = closed) as Hclosed.
  { intros [|]; [done|]. unfold closed, FragmentClient.step,
      FragmentClient.__aexit__, FragmentClient.close. simpl.
    by rewrite insert_insert_eq. }
  assert (FragmentClient.step opened FragmentClient.Exit = closed) as Hexit.
  { unfold opened, closed, FragmentClient.step,
      FragmentClient.__aexit__, FragmentClient.close. simpl.
    by rewrite insert_insert_eq. }
  split.
  - intros calls.
    apply (run_invariant (λ st, st = made ∨ st = opened ∨ st = closed));
      [|by left].
    intros st c [-> | [-> | ->]].
    + destruct c; [right; by left|by left].
    + destruct c; [right; by left|]. right. right. exact Hexit.
    + right. right. apply Hclosed.
  - intros calls.
    change (FragmentClient.run calls
              (FragmentClient.step opened FragmentClient.Exit) = closed).
    rewrite Hexit.
    by apply (run_invariant (λ st, st = closed)); [intros st c ->|].
Qed.

(** ** The requests of the client *)

Section requests_facts.

Context {E : Type}.

Variable urljoin : string → string → result string.

Variable session_request :
  gmap nat bool → nat → string → string → option (gmap string string)
  → E + string.

Variable BeautifulSoup : string → E + element.

Lemma request_no_session w self method path kwargs url :
  FragmentClient._session self = None →
  urljoin base_url path = inr url →
  FragmentClient._request urljoin session_request w self method path kwargs
  = inl (FragmentClient.PythonError AttributeError).
Proof.
  unfold FragmentClient._request. by intros -> ->.
Qed.

(** X12: a client without session, that is one made without session and
    not entered, raises [AttributeError] on every request once the address
    is joined, before any session is asked, and so do [get_gifts] and
    [get_gift_info]; an entered client always has a session, and its request
    is the request of that session. *)
Theorem X12_request_needs_a_session w self :
  (FragmentClient._session self = None →
   (∀ method path kwargs url,
      urljoin base_url path = inr url →
      FragmentClient._request urljoin session_request w self method path
        kwargs
      = inl (FragmentClient.PythonError AttributeError)) ∧
   (∀ type_gift filter sort url,
      urljoin base_url (FragmentClient.gifts_path type_gift) = inr url →
      FragmentClient.get_gifts urljoin session_request BeautifulSoup w self
        type_gift filter sort
      = inl (FragmentClient.PythonError AttributeError)) ∧
   (∀ url gift_id type_gift url',
      urljoin base_url url = inr url' →
      FragmentClient.get_gift_info urljoin session_request BeautifulSoup w
        self url gift_id type_gift
      = inl (FragmentClient.PythonError AttributeError))) ∧
  (∃ s,
     FragmentClient._session (FragmentClient.__aenter__ w self).2 = Some s ∧
     ∀ w' method path kwargs url,
       urljoin base_url path = inr url →
       FragmentClient._request urljoin session_request w'
         (FragmentClient.__aenter__ w self).2 method path kwargs
       = FragmentClient.library (session_request w' s method url kwargs)).
Proof.
  split.
  - intros Hnone. split_and!.
    + intros method path kwargs url. by apply request_no_session.
    + intros type_gift filter sort url Hurl.
      unfold FragmentClient.get_gifts.
      by rewrite (request_no_session _ _ _ _ _ url).
    + intros url gift_id type_gift url' Hurl.
      unfold FragmentClient.get_gift_info.
      by rewrite (request_no_session _ _ _ _ _ url').
  - assert (∃ s, FragmentClient._session (FragmentClient.__aenter__ w self).2
                 = Some s) as (s & Hs).
    { unfold FragmentClient.__aenter__.
      destruct (FragmentClient._session self) as [s|] eqn:Hself; simpl; eauto. }
    exists s. split; [done|].
    intros w' method path kwargs url Hurl.
    unfold FragmentClient._request. by rewrite Hurl, Hs.
Qed.

(** X13: [Gift.get_info] returns exactly when the request for the page of
    the gift returns a text and the parser a document; what is on the page
    never makes it raise; a failure of the request or of the parser comes out
    as it is; and the [id] and [type] of the [GiftInfo] are those of the
    [Gift]. *)
Theorem X13_get_info_fails_with_the_request_only w _parser (g : Gift.t) :
  let request :=
    FragmentClient._request urljoin session_request w _parser "GET"
      (Gift.url g) None in
  let get_info :=
    FragmentClient.get_info urljoin session_request BeautifulSoup w
      _parser g in
  (∀ html soup,
     request = inr html → BeautifulSoup html = inr soup →
     ∃ info, get_info = inr info ∧ get_gift_info soup (Gift.id g)
                                      (Gift.type g) = inr info) ∧
  (∀ info,
     get_info = inr info →
     GiftInfo.id info = Gift.id g ∧ GiftInfo.type info = Gift.type g ∧
     ∃ html soup, request = inr html ∧ BeautifulSoup html = inr soup) ∧
  (∀ f,
     get_info = inl f ↔
     request = inl f ∨
     ∃ html e, request = inr html ∧ BeautifulSoup html = inl e ∧
               f = FragmentClient.LibraryError e).
Proof.
  intros request get_info. subst get_info.
  unfold FragmentClient.get_info, FragmentClient.get_gift_info.
  fold request. destruct request as [f0|html]; simpl.
  - split_and!; [done|done|]. intros f. split.
    + intros [= ->]. by left.
    + intros [[= ->]|(html & e & ? & _)]; done.
  - destruct (BeautifulSoup html) as [e|soup] eqn:Hsoup; simpl.
    + split_and!.
      * intros html' soup' [= <-]. congruence.
      * done.
      * intros f. split.
        -- intros [= <-]. right. by exists html, e.
        -- intros [?|(html' & e' & [= <-] & He & ->)]; [done|]. congruence.
    + rewrite get_gift_info_eq. simpl. split_and!.
      * intros html' soup' [= <-] Hsoup'.
        assert (soup' = soup) as -> by congruence.
        rewrite get_gift_info_eq. by eexists.
      * intros info [= <-]. simpl. split_and!; [done..|].
        by exists html, soup.
      * intros f. split; [done|].
        intros [?|(html' & e' & [= <-] & He & _)]; [done|]. congruence.
Qed.

End requests_facts.

Lemma X12_witness :
  FragmentClient.get_gift_info urljoin_path (answer_request "<html>")
    parse_detail_pepe ∅ (FragmentClient.__init__ None) "/gift/plushpepe-7"
    7 "plushpepe"
  = inl (FragmentClient.PythonError AttributeError).
Proof.
  exact (proj2 (proj2 (proj1 (X12_request_needs_a_session urljoin_path
                                (answer_request "<html>") parse_detail_pepe
                                ∅ (FragmentClient.__init__ None)) eq_refl))
           "/gift/plushpepe-7" 7 "plushpepe"
           "https://fragment.com/gift/plushpepe-7" eq_refl).
Defined.

(** With the session down the failure of the request comes out; with a
    session that answers, the [GiftInfo] has the id and the type of the
    [Gift]. *)
Lemma X13_witness :
  FragmentClient.get_info urljoin_absolute failed_request parse_detail_pepe ∅
    (FragmentClient.__init__ (Some 0%nat)) gift_pepe
  = inl (FragmentClient.LibraryError "ClientConnectionError") ∧
  ∃ info,
    FragmentClient.get_info urljoin_absolute (answer_request "<html>")
      parse_detail_pepe ∅ (FragmentClient.__init__ (Some 0%nat)) gift_pepe
    = inr info ∧
    get_gift_info detail_pepe 1234 "plushpepe" = inr info.
Proof.
  split.
  - apply (proj2 (proj2 (X13_get_info_fails_with_the_request_only
                           urljoin_absolute failed_request parse_detail_pepe ∅
                           (FragmentClient.__init__ (Some 0%nat))
                           gift_pepe))).
    left. reflexivity.
  - apply (proj1 (X13_get_info_fails_with_the_request_only
                    urljoin_absolute (answer_request "<html>") parse_detail_pepe
                    ∅ (FragmentClient.__init__ (Some 0%nat)) gift_pepe)
             "<html>" detail_pepe); reflexivity.
Defined.

(** X14: the request of [get_gifts] is a [POST] whose parameters are the
    filter and, when [sort] is a text that is not empty, the sort, and
    nothing else; its path is [gifts/] and the type when [type_gift] is a
    text that is not empty, and [gifts] otherwise. An empty text counts as no
    value in both places. When the session fails, the failure comes out of
    [get_gifts] as it is. *)
Theorem X14_listing_request {E : Type} urljoin
    (session_request :
       gmap nat bool → nat → string → string → option (gmap string string)
       → E + string)
    BeautifulSoup filter sort type_gift :
  FragmentClient.request_params filter sort !! "filter" = Some filter ∧
  (FragmentClient.request_params filter sort !! "sort" = None ↔
   sort = None ∨ sort = Some "") ∧
  (∀ s, FragmentClient.request_params filter sort !! "sort" = Some s →
        sort = Some s) ∧
  (∀ key, key ≠ "filter" → key ≠ "sort" →
          FragmentClient.request_params filter sort !! key = None) ∧
  (type_gift = None ∨ type_gift = Some "" →
   FragmentClient.gifts_path type_gift = "gifts") ∧
  (∀ t, type_gift = Some t → t ≠ "" →
        FragmentClient.gifts_path type_gift = "gifts/" +:+ t) ∧
  (∀ w self s url e,
     FragmentClient._session self = Some s →
     urljoin base_url (FragmentClient.gifts_path type_gift) = inr url →
     session_request w s "POST" url
       (Some (FragmentClient.request_params filter sort)) = inl e →
     FragmentClient.get_gifts urljoin session_request BeautifulSoup w self
       type_gift filter sort
     = inl (FragmentClient.LibraryError e)).
Proof.
  unfold FragmentClient.request_params, FragmentClient.gifts_path.
  split_and!.
  - destruct sort as [[|c r]|]; simpl; by simplify_map_eq.
  - destruct sort as [[|c r]|]; simpl; simplify_map_eq; split; eauto;
      intros [?|?]; done.
  - intros s. destruct sort as [[|c r]|]; simpl; simplify_map_eq; congruence.
  - intros key Hf Hs. destruct sort as [[|c r]|]; simpl; by simplify_map_eq.
  - by intros [->| ->].
  - intros t -> Ht. by destruct t.
  - intros w self s url e Hs Hurl Hreq.
    unfold FragmentClient.get_gifts, FragmentClient._request,
      FragmentClient.request_params, FragmentClient.gifts_path.
    rewrite Hurl, Hs. simpl. by rewrite Hreq.
Qed.

Lemma X14_witness :
  FragmentClient.gifts_path (Some "plushpepe") = "gifts/plushpepe" ∧
  FragmentClient.get_gifts urljoin_relative failed_request parse_detail_pepe ∅
    (FragmentClient.__init__ (Some 0%nat)) (Some "plushpepe") "sale" None
  = inl (FragmentClient.LibraryError "ClientConnectionError").
Proof.
  split.
  - apply (proj1 (proj2 (proj2 (proj2 (proj2 (proj2
             (X14_listing_request urljoin_relative failed_request
                parse_detail_pepe "sale" None (Some "plushpepe")))))))
             "plushpepe" eq_refl).
    discriminate.
  - apply (proj2 (proj2 (proj2 (proj2 (proj2 (proj2
             (X14_listing_request urljoin_relative failed_request
                parse_detail_pepe "sale" None (Some "plushpepe")))))))
             ∅ (FragmentClient.__init__ (Some 0%nat)) 0%nat
             "https://fragment.com/gifts/plushpepe" "ClientConnectionError");
      reflexivity.
Defined.

(** ** [main] *)

Section main_facts.

Context {E : Type}.

Variable urljoin : string → string → result string.

Variable session_request :
  gmap nat bool → nat → string → string → option (gmap string string)
  → E + string.

Variable BeautifulSoup : string → E + element.

Variable str_int : Z → string.

Variable str_price : option Py.double → string.



End main_facts.
